(** * winble: a shallow embedding of src/winble/winble.cpp

    The file follows the source top-down: the address and GUID helpers
    ([MacAddressStringToUint], [BytesToGuid]), service discovery
    ([GetCharacteristics]), the connected device ([WinBleDevice]) and the
    adapter with its device watcher ([WinBleAdapter]).  Calls into the
    C runtime and into the WinRT Bluetooth stack are modelled by small
    executable definitions placed next to their first use. *)

From Stdlib Require Import ZArith NArith List Bool String Ascii Lia.
From Stdlib Require Import Strings.Byte.
From Stdlib Require Import Sorting.Permutation.
Import ListNotations.

Local Open Scope Z_scope.

(** ** The C runtime: <cctype>, <cstdlib>, <algorithm> on [std::string] *)

Module CRuntime.

(** [isspace] in the "C" locale: space, \t, \n, \v, \f, \r. *)
Definition isspace (c : ascii) : bool :=
  let n := Z.of_nat (nat_of_ascii c) in
  (n =? 32) || ((9 <=? n) && (n <=? 13)).

(** Value of a hexadecimal digit, [None] for any other character. *)
Definition hex_digit (c : ascii) : option Z :=
  let n := Z.of_nat (nat_of_ascii c) in
  if (48 <=? n) && (n <=? 57) then Some (n - 48)          (* '0'..'9' *)
  else if (97 <=? n) && (n <=? 102) then Some (n - 87)    (* 'a'..'f' *)
  else if (65 <=? n) && (n <=? 70) then Some (n - 55)     (* 'A'..'F' *)
  else None.

Definition is_hex_digit (c : ascii) : bool :=
  match hex_digit c with Some _ => true | None => false end.

(** [s.erase(std::remove(s.begin(), s.end(), c), s.end())] *)
Fixpoint erase_remove (c : ascii) (s : string) : string :=
  match s with
  | EmptyString => EmptyString
  | String a rest =>
      if Ascii.eqb a c then erase_remove c rest
      else String a (erase_remove c rest)
  end.

Fixpoint skip_spaces (s : string) : string :=
  match s with
  | String a rest => if isspace a then skip_spaces rest else s
  | EmptyString => EmptyString
  end.

(** Optional sign: the flag is [true] for a leading minus. *)
Definition take_sign (s : string) : bool * string :=
  match s with
  | String "-" rest => (true, rest)
  | String "+" rest => (false, rest)
  | _ => (false, s)
  end.

(** Base 16 accepts a "0x"/"0X" prefix, which belongs to the subject
    sequence only when a hexadecimal digit follows it. *)
Definition skip_0x (s : string) : string :=
  match s with
  | String "0" (String x (String d rest)) =>
      if (Ascii.eqb x "x" || Ascii.eqb x "X") && is_hex_digit d
      then String d rest else s
  | _ => s
  end.

(** The longest run of hexadecimal digits at the front of [s], as the list
    of their values, most significant first. *)
Fixpoint hex_run (s : string) : list Z :=
  match s with
  | String a rest =>
      match hex_digit a with
      | Some d => d :: hex_run rest
      | None => []
      end
  | EmptyString => []
  end.

Definition hex_value (ds : list Z) : Z :=
  fold_left (fun acc d => acc * 16 + d) ds 0.

(** The digits strtoul converts: what follows white space, sign and prefix. *)
Definition subject_digits (s : string) : list Z :=
  hex_run (skip_0x (snd (take_sign (skip_spaces s)))).

Section Strtoul.

(** <climits>: the largest [unsigned long] of the target. *)
Variable ULONG_MAX : Z.

(** [strtoul(s, NULL, 16)]: no digits gives 0; a value that does not
    fit gives [ULONG_MAX]; a minus sign negates in [unsigned long]. *)
Definition strtoul16 (s : string) : Z :=
  let '(neg, body) := take_sign (skip_spaces s) in
  let ds := hex_run (skip_0x body) in
  let v := hex_value ds in
  if ULONG_MAX <? v then ULONG_MAX
  else if neg then (ULONG_MAX + 1 - v) mod (ULONG_MAX + 1)
  else v.

End Strtoul.

End CRuntime.

(** ** MacAddressStringToUint (winble.cpp, lines 35-42) *)

Section Address.

Variable ULONG_MAX : Z.

Definition MacAddressStringToUint (macAddress : string) : Z :=
  (* Remove colons if there are any *)
  let macAddress := CRuntime.erase_remove ":" macAddress in
  (* Convert to uint64_t *)
  CRuntime.strtoul16 ULONG_MAX macAddress.

End Address.

(** Every character of a string is a hexadecimal digit. *)
Fixpoint all_hex (s : string) : bool :=
  match s with
  | EmptyString => true
  | String a rest => CRuntime.is_hex_digit a && all_hex rest
  end.

(** [unsigned long] of the two data models the runtime is built for. *)
Definition ULONG_MAX_LLP64 : Z := 4294967295.
Definition ULONG_MAX_LP64 : Z := 18446744073709551615.

(** ** Outcomes of a call: a value, a C++ exception, or undefined behaviour *)

Inductive exn : Type :=
| std_exception                          (* std::exception() *)
| std_exception_what (what : string)     (* a std::exception with this what() *)
| hresult_error (what : string).         (* raised inside WinRT *)

(** [std::exception(what, arg)]: the two-argument constructor of the
    Microsoft runtime, [exception(char const* const _Message, int)].  Its
    int parameter is unnamed and not stored; the object constructed keeps
    the message and nothing else. *)
Definition std_exception_msg (what : string) (arg : Z) : exn :=
  std_exception_what what.

Inductive outcome (A : Type) : Type :=
| Returns (a : A)
| Throws (e : exn)
| Undefined.

Arguments Returns {A} a.
Arguments Throws {A} e.
Arguments Undefined {A}.

(** ** WinRT values used by the source *)

Module WinRT.

(** [winrt::guid]: Data1 is 32 bits, Data2 and Data3 are 16 bits, Data4 is
    eight bytes. *)
Record guid : Type := mk_guid {
  Data1 : Z;
  Data2 : Z;
  Data3 : Z;
  Data4 : list byte
}.

Definition byte_eqb (a b : byte) : bool := N.eqb (Byte.to_N a) (Byte.to_N b).

Fixpoint bytes_eqb (a b : list byte) : bool :=
  match a, b with
  | [], [] => true
  | x :: a', y :: b' => byte_eqb x y && bytes_eqb a' b'
  | _, _ => false
  end.

(** [operator==] on guid: member-wise. *)
Definition guid_eqb (a b : guid) : bool :=
  (Data1 a =? Data1 b) && (Data2 a =? Data2 b) && (Data3 a =? Data3 b)
  && bytes_eqb (Data4 a) (Data4 b).

Definition valid_guid (g : guid) : Prop :=
  0 <= Data1 g < 2 ^ 32 /\ 0 <= Data2 g < 2 ^ 16 /\ 0 <= Data3 g < 2 ^ 16
  /\ List.length (Data4 g) = 8%nat.

(** Windows.Storage.Streams.ByteOrder, a property of DataReader and
    DataWriter that governs the integer members of a GUID. *)
Inductive ByteOrder : Type := LittleEndian | BigEndian.

Definition Z_of_byte (b : byte) : Z := Z.of_N (Byte.to_N b).

Definition byte_of_Z (z : Z) : byte :=
  match Byte.of_N (Z.to_N (z mod 256)) with
  | Some b => b
  | None => x00
  end.

Definition uint_of_be (bs : list byte) : Z :=
  fold_left (fun acc b => acc * 256 + Z_of_byte b) bs 0.

Definition read_uint (bo : ByteOrder) (bs : list byte) : Z :=
  match bo with
  | BigEndian => uint_of_be bs
  | LittleEndian => uint_of_be (rev bs)
  end.

Fixpoint be_of_uint (n : nat) (v : Z) : list byte :=
  match n with
  | O => []
  | S k => be_of_uint k (v / 256) ++ [byte_of_Z v]
  end.

Definition write_uint (bo : ByteOrder) (n : nat) (v : Z) : list byte :=
  match bo with
  | BigEndian => be_of_uint n v
  | LittleEndian => rev (be_of_uint n v)
  end.

(** [DataReader::ReadGuid] on a reader whose buffer holds [buf]: sixteen
    bytes are consumed, Data1..Data3 in the reader's byte order, Data4 in
    stream order; a shorter buffer is an error. *)
Definition ReadGuid (bo : ByteOrder) (buf : list byte) : outcome guid :=
  if (List.length buf <? 16)%nat then Throws (hresult_error "E_BOUNDS")
  else Returns {| Data1 := read_uint bo (firstn 4 buf);
                  Data2 := read_uint bo (firstn 2 (skipn 4 buf));
                  Data3 := read_uint bo (firstn 2 (skipn 6 buf));
                  Data4 := firstn 8 (skipn 8 buf) |}.

(** [DataWriter::WriteGuid], the writer's side of the same layout. *)
Definition WriteGuid (bo : ByteOrder) (g : guid) : list byte :=
  write_uint bo 4 (Data1 g) ++ write_uint bo 2 (Data2 g)
  ++ write_uint bo 2 (Data3 g) ++ Data4 g.

(** Windows.Devices.Bluetooth.GenericAttributeProfile *)
Inductive GattCommunicationStatus : Type :=
| Success | Unreachable | ProtocolError | AccessDenied.

(** [static_cast<int>] of the enumeration. *)
Definition status_int (s : GattCommunicationStatus) : Z :=
  match s with
  | Success => 0 | Unreachable => 1 | ProtocolError => 2 | AccessDenied => 3
  end.

Definition is_Success (s : GattCommunicationStatus) : bool :=
  match s with Success => true | _ => false end.

Inductive GattClientCharacteristicConfigurationDescriptorValue : Type :=
| CccdNone | Notify | Indicate.

(** A characteristic object: its UUID and the attribute handle that tells
    it apart from every other characteristic of the peripheral. *)
Record GattCharacteristic : Type := {
  Uuid : guid;
  AttributeHandle : Z
}.

Record GattCharacteristicsResult : Type := {
  CharacteristicsStatus : GattCommunicationStatus;
  Characteristics : list GattCharacteristic
}.

(** A service, with the answer it gives to
    [GetCharacteristicsAsync(BluetoothCacheMode::Uncached).get()]. *)
Record GattDeviceService : Type := {
  ServiceUuid : guid;
  GetCharacteristicsAsync : GattCharacteristicsResult
}.

Record GattDeviceServicesResult : Type := {
  ServicesStatus : GattCommunicationStatus;
  Services : list GattDeviceService
}.

(** A peripheral handle, with the answer it gives to
    [GetGattServicesAsync(BluetoothCacheMode::Uncached).get()]. *)
Record BluetoothLEDevice : Type := {
  GetGattServicesAsync : GattDeviceServicesResult
}.

(** Windows.Devices.Enumeration *)
Inductive DeviceWatcherStatus : Type :=
| Created | Started | EnumerationCompleted | Stopping | Stopped | Aborted.

Definition is_Started (s : DeviceWatcherStatus) : bool :=
  match s with Started => true | _ => false end.

(** A device record.  [Object] stands for the identity of the WinRT object,
    which is what hashing and equality of the projected type compare. *)
Record DeviceInformation : Type := {
  Object : nat;
  Id : string;
  Name : string;
  Properties : list (string * string)
}.

Record DeviceInformationUpdate : Type := {
  UpdateId : string;
  UpdateProperties : list (string * string)
}.

(** [IMapView::Lookup]: the value of the first entry under [key]; a
    missing key is an error. *)
Fixpoint Lookup (m : list (string * string)) (key : string) : outcome string :=
  match m with
  | [] => Throws (hresult_error "E_BOUNDS")
  | (k, v) :: rest => if String.eqb k key then Returns v else Lookup rest key
  end.

(** [DeviceInformation::Update]: the properties carried by the update
    take the place of the stored ones with the same key. *)
Definition Update (d : DeviceInformation) (u : DeviceInformationUpdate)
  : DeviceInformation :=
  {| Object := Object d; Id := Id d; Name := Name d;
     Properties := UpdateProperties u ++ Properties d |}.

End WinRT.

Import WinRT.

(** ** BytesToGuid (winble.cpp, lines 56-65) *)

Section Guid.

(** The byte order of the DataReader that [BytesToGuid] creates. *)
Variable byte_order : ByteOrder.

Definition BytesToGuid (guidBytes : list byte) : outcome guid :=
  (* guidWriter.WriteBytes, DetachBuffer, DataReader::FromBuffer:
     the reader is handed exactly the bytes of the string *)
  match ReadGuid byte_order guidBytes with
  | Returns result =>
      (* std::reverse(std::begin(result.Data4), std::end(result.Data4)) *)
      Returns {| Data1 := Data1 result; Data2 := Data2 result;
                 Data3 := Data3 result; Data4 := rev (Data4 result) |}
  | Throws e => Throws e
  | Undefined => Undefined
  end.

(** Modelled from the spec: the source has no encoder, only the decoder
    above.  Section 4.1 asks for "the exact inverse" of the decoder: undo
    the reversal of the last eight bytes, then store the GUID in the
    platform layout. *)
Definition EncodeUuid (u : guid) : list byte :=
  WriteGuid byte_order
    {| Data1 := Data1 u; Data2 := Data2 u; Data3 := Data3 u;
       Data4 := rev (Data4 u) |}.

End Guid.

(** ** GetCharacteristics (winble.cpp, lines 67-99) *)

(** The body of the range-for over the services, with the accumulator
    [allCharacteristics]. *)
Fixpoint GetCharacteristics_loop (services : list GattDeviceService)
    (allCharacteristics : list GattCharacteristic)
  : outcome (list GattCharacteristic) :=
  match services with
  | [] => Returns allCharacteristics
  | service :: rest =>
      let characteristicsResult := GetCharacteristicsAsync service in
      if negb (is_Success (CharacteristicsStatus characteristicsResult))
      then Throws std_exception
      else GetCharacteristics_loop rest
             (allCharacteristics ++ Characteristics characteristicsResult)
  end.

Definition GetCharacteristics (device : BluetoothLEDevice)
  : outcome (list GattCharacteristic) :=
  let getServicesResult := GetGattServicesAsync device in
  if negb (is_Success (ServicesStatus getServicesResult))
  then Throws std_exception
  else GetCharacteristics_loop (Services getServicesResult) [].

(** What a complete discovery collects: the characteristics of every
    service, in the order of the services. *)
Definition all_characteristics (device : BluetoothLEDevice)
  : list GattCharacteristic :=
  flat_map (fun service => Characteristics (GetCharacteristicsAsync service))
           (Services (GetGattServicesAsync device)).

(** Every status of a discovery is Success. *)
Definition discovery_succeeds (device : BluetoothLEDevice) : Prop :=
  ServicesStatus (GetGattServicesAsync device) = Success
  /\ forall service, In service (Services (GetGattServicesAsync device)) ->
       CharacteristicsStatus (GetCharacteristicsAsync service) = Success.

(** ** WinBleDevice (winble.cpp, lines 101-199) *)

Record WinBleDevice : Type := {
  m_device : BluetoothLEDevice;
  (* In-memory cache of characteristics from the device. *)
  m_characteristics : list GattCharacteristic
}.

(** The constructor: the member initialiser runs [GetCharacteristics];
    when it throws, no object is constructed. *)
Definition WinBleDevice_new (device : BluetoothLEDevice) : outcome WinBleDevice :=
  match GetCharacteristics device with
  | Returns cs => Returns {| m_device := device; m_characteristics := cs |}
  | Throws e => Throws e
  | Undefined => Undefined
  end.

(** *** The Bluetooth stack as seen by a session *)

(** A Python callable handed to [subscribe]. *)
Definition Handler : Type := nat.

(** Requests that reach the Bluetooth stack. *)
Inductive Call : Type :=
| FromIdAsync (id : string)
| FromBluetoothAddressAsync (address : Z)
| WriteValueAsync (c : GattCharacteristic) (value : list byte)
| WriteClientCharacteristicConfigurationDescriptorAsync
    (c : GattCharacteristic)
    (v : GattClientCharacteristicConfigurationDescriptorValue)
| ValueChanged (c : GattCharacteristic) (h : Handler).

(** How the stack and the peripheral answer, given the calls made so far.
    A connect request answered by [None] yields a null device. *)
Record Radio : Type := {
  FromIdAsync_get : list Call -> string -> option BluetoothLEDevice;
  FromBluetoothAddressAsync_get : list Call -> Z -> option BluetoothLEDevice;
  WriteValueAsync_get :
    list Call -> GattCharacteristic -> list byte -> GattCommunicationStatus;
  WriteDescriptor_get :
    list Call -> GattCharacteristic -> GattCommunicationStatus
}.

(** The state of the stack: the log of calls, oldest first, and the
    ValueChanged event of every characteristic, as the list of registered
    handlers in registration order.  The position of a registration is its
    event token. *)
Record Stack : Type := {
  calls : list Call;
  value_changed : list (GattCharacteristic * Handler)
}.

(** State and exceptions are threaded explicitly: a computation maps the
    state before to an outcome and the state after (which, for a throw, keeps
    what was done before the throw). *)
Definition M (S A : Type) : Type := S -> outcome A * S.

Definition ret {S A} (a : A) : M S A := fun s => (Returns a, s).
Definition throw {S A} (e : exn) : M S A := fun s => (Throws e, s).
Definition undefined {S A} : M S A := fun s => (Undefined, s).

Definition bind {S A B} (m : M S A) (k : A -> M S B) : M S B :=
  fun s =>
    match m s with
    | (Returns a, s') => k a s'
    | (Throws e, s') => (Throws e, s')
    | (Undefined, s') => (Undefined, s')
    end.

Definition lift {S A} (o : outcome A) : M S A := fun s => (o, s).

Notation "x <- m ;; k" := (bind m (fun x => k))
  (at level 61, m at next level, right associativity).

Definition characteristic_eqb (a b : GattCharacteristic) : bool :=
  (AttributeHandle a =? AttributeHandle b) && guid_eqb (Uuid a) (Uuid b).

(** The handlers registered on the ValueChanged event of [c]. *)
Definition handlers_of (s : Stack) (c : GattCharacteristic) : list Handler :=
  map snd (filter (fun r => characteristic_eqb (fst r) c) (value_changed s)).

(** The lambda that [Subscribe] registers: the characteristic value is
    copied out and the Python callable is called on the copy.  A call of a
    handler is written as the pair of the handler and its argument. *)
Definition on_ValueChanged (eventHandler : Handler) (value : list byte)
  : Handler * list byte :=
  let dataAsString := value in
  (eventHandler, dataAsString).

(** A notification of [c] with [value]: the calls of Python handlers it
    causes, every handler of the event being invoked in turn. *)
Definition notification (s : Stack) (c : GattCharacteristic) (value : list byte)
  : list (Handler * list byte) :=
  map (fun h => on_ValueChanged h value) (handlers_of s c).

Section Session.

Variable byte_order : ByteOrder.
Variable radio : Radio.

(** [c.WriteValueAsync(buffer).get()] *)
Definition WriteValue (c : GattCharacteristic) (value : list byte)
  : M Stack GattCommunicationStatus :=
  fun s =>
    let answer := WriteValueAsync_get radio (calls s) c value in
    (Returns answer, {| calls := calls s ++ [WriteValueAsync c value];
                        value_changed := value_changed s |}).

(** [c.WriteClientCharacteristicConfigurationDescriptorAsync(v).get()] *)
Definition WriteDescriptor (c : GattCharacteristic)
    (v : GattClientCharacteristicConfigurationDescriptorValue)
  : M Stack GattCommunicationStatus :=
  fun s =>
    let answer := WriteDescriptor_get radio (calls s) c in
    (Returns answer,
     {| calls := calls s
                 ++ [WriteClientCharacteristicConfigurationDescriptorAsync c v];
        value_changed := value_changed s |}).

(** [c.ValueChanged(handler)]: adds the handler to the event of [c] and
    returns the token of the new registration. *)
Definition AddValueChanged (c : GattCharacteristic) (h : Handler)
  : M Stack nat :=
  fun s =>
    (Returns (List.length (value_changed s)),
     {| calls := calls s ++ [ValueChanged c h];
        value_changed := value_changed s ++ [(c, h)] |}).

(** [std::find_if] over the cache with the lambda
    [characteristicGuid == characteristic.Uuid()]. *)
Definition find_characteristic (self : WinBleDevice) (characteristicGuid : guid)
  : option GattCharacteristic :=
  find (fun characteristic => guid_eqb characteristicGuid (Uuid characteristic))
       (m_characteristics self).

Definition WriteToCharacteristic (self : WinBleDevice)
    (characteristicId : list byte) (data : list byte) : M Stack unit :=
  let dataBytes := data in
  characteristicGuid <- lift (BytesToGuid byte_order characteristicId) ;;
  match find_characteristic self characteristicGuid with
  | None => throw std_exception
  | Some characteristic =>
      (* Assume for now that we only got one characteristic. *)
      result <- WriteValue characteristic dataBytes ;;
      if negb (is_Success result)
      then throw (std_exception_msg
                    "WinBleDevice: Error sending data to bluetooth device."
                    (status_int result))
      else ret tt
  end.

Definition Subscribe (self : WinBleDevice)
    (characteristicId : list byte) (eventHandler : option Handler)
  : M Stack unit :=
  match eventHandler with
  | None => ret tt
  | Some handler =>
      characteristicGuid <- lift (BytesToGuid byte_order characteristicId) ;;
      match find_characteristic self characteristicGuid with
      | None => throw std_exception
      | Some characteristic =>
          (* Tell the characteristic we want to receive notifications. *)
          status <- WriteDescriptor characteristic Notify ;;
          if negb (is_Success status)
          then throw std_exception
          else
            valueChangedEventToken <- AddValueChanged characteristic handler ;;
            ret tt
      end
  end.

End Session.

(** ** Iterators of the standard containers, as positions *)

(** [std::find_if(l.begin(), l.end(), p)]: the position of the first
    element satisfying [p], or [length l], the position of [end()]. *)
Fixpoint find_if {A} (p : A -> bool) (l : list A) : nat :=
  match l with
  | [] => O
  | x :: rest => if p x then O else S (find_if p rest)
  end.

(** [l.erase(pos)]: [pos] has to be dereferenceable; erasing [end()] is
    undefined behaviour. *)
Definition erase {A} (l : list A) (pos : nat) : outcome (list A) :=
  if (pos <? List.length l)%nat
  then Returns (firstn pos l ++ skipn (S pos) l)
  else Undefined.

(** ** g_requestedProperties (winble.cpp, lines 23-28) *)

Definition g_requestedProperties : list string :=
  ["System.Devices.Aep.DeviceAddress"%string;
   "System.Devices.Aep.IsConnected"%string;
   "System.Devices.Aep.Bluetooth.Le.AddressType"%string].

(** [CreateDeviceWatcher] hands [g_requestedProperties] to the watcher, which
    is what puts these keys into the property map of the records it
    reports. *)
Definition carries_requested (deviceInfo : DeviceInformation) : Prop :=
  forall key, In key g_requestedProperties ->
              exists v, Lookup (Properties deviceInfo) key = Returns v.

(** A device table all of whose records carry the requested properties. *)
Definition watcher_table (table : list DeviceInformation) : Prop :=
  forall deviceInfo, In deviceInfo table -> carries_requested deviceInfo.

(** ** GetDeviceAddress (winble.cpp, lines 30-33) *)

Definition GetDeviceAddress (deviceInfo : DeviceInformation) : outcome string :=
  Lookup (Properties deviceInfo) "System.Devices.Aep.DeviceAddress".

(** ** WinBleAdapter (winble.cpp, lines 201-349) *)

(** The four lambdas that [Start] registers; each captures [this]. *)
Inductive WatcherHandler : Type :=
| AddedHandler | UpdatedHandler | RemovedHandler | EnumerationCompletedHandler.

(** The watcher: its status and the handlers registered on its events, in
    registration order.  The position of a registration is its token. *)
Record DeviceWatcher : Type := {
  Status : DeviceWatcherStatus;
  registered : list WatcherHandler
}.

(** [CreateDeviceWatcher] *)
Definition CreateDeviceWatcher : DeviceWatcher :=
  {| Status := Created; registered := [] |}.

Record WinBleAdapter : Type := {
  m_deviceWatcher : DeviceWatcher;
  (* std::unordered_set, as the list of its elements in iteration order *)
  m_nearbyDevices : list DeviceInformation;
  (* std::condition_variable, as the number of notify_all calls so far *)
  m_enumerationCompletedEvent : nat;
  m_addedEventToken : nat;
  m_updatedEventToken : nat;
  m_removedEventToken : nat;
  m_deviceEunumerationCompletedEventToken : nat
}.

Definition WinBleAdapter_new : WinBleAdapter :=
  {| m_deviceWatcher := CreateDeviceWatcher;
     m_nearbyDevices := [];
     m_enumerationCompletedEvent := O;
     m_addedEventToken := O;
     m_updatedEventToken := O;
     m_removedEventToken := O;
     m_deviceEunumerationCompletedEventToken := O |}.

Definition set_watcher (w : DeviceWatcher) (a : WinBleAdapter) : WinBleAdapter :=
  {| m_deviceWatcher := w;
     m_nearbyDevices := m_nearbyDevices a;
     m_enumerationCompletedEvent := m_enumerationCompletedEvent a;
     m_addedEventToken := m_addedEventToken a;
     m_updatedEventToken := m_updatedEventToken a;
     m_removedEventToken := m_removedEventToken a;
     m_deviceEunumerationCompletedEventToken :=
       m_deviceEunumerationCompletedEventToken a |}.

Definition set_nearbyDevices (t : list DeviceInformation) (a : WinBleAdapter)
  : WinBleAdapter :=
  {| m_deviceWatcher := m_deviceWatcher a;
     m_nearbyDevices := t;
     m_enumerationCompletedEvent := m_enumerationCompletedEvent a;
     m_addedEventToken := m_addedEventToken a;
     m_updatedEventToken := m_updatedEventToken a;
     m_removedEventToken := m_removedEventToken a;
     m_deviceEunumerationCompletedEventToken :=
       m_deviceEunumerationCompletedEventToken a |}.

(** [m_deviceWatcher.Added(handler)] and its three siblings: the handler
    is appended to the watcher's registrations and the token returned. *)
Definition register (h : WatcherHandler) : M WinBleAdapter nat :=
  fun a =>
    let w := m_deviceWatcher a in
    (Returns (List.length (registered w)),
     set_watcher {| Status := Status w; registered := registered w ++ [h] |} a).

(** [m_deviceWatcher.Start()]: legal in the Created, Stopped and Aborted
    states only. *)
Definition DeviceWatcher_Start : M WinBleAdapter unit :=
  fun a =>
    let w := m_deviceWatcher a in
    match Status w with
    | Created | Stopped | Aborted =>
        (Returns tt,
         set_watcher {| Status := Started; registered := registered w |} a)
    | _ => (Throws (hresult_error "E_ILLEGAL_METHOD_CALL"), a)
    end.

(** Assignments to the four token members. *)
Definition set_addedEventToken (t : nat) : M WinBleAdapter unit :=
  fun a =>
    (Returns tt,
     {| m_deviceWatcher := m_deviceWatcher a;
        m_nearbyDevices := m_nearbyDevices a;
        m_enumerationCompletedEvent := m_enumerationCompletedEvent a;
        m_addedEventToken := t;
        m_updatedEventToken := m_updatedEventToken a;
        m_removedEventToken := m_removedEventToken a;
        m_deviceEunumerationCompletedEventToken :=
          m_deviceEunumerationCompletedEventToken a |}).

Definition set_updatedEventToken (t : nat) : M WinBleAdapter unit :=
  fun a =>
    (Returns tt,
     {| m_deviceWatcher := m_deviceWatcher a;
        m_nearbyDevices := m_nearbyDevices a;
        m_enumerationCompletedEvent := m_enumerationCompletedEvent a;
        m_addedEventToken := m_addedEventToken a;
        m_updatedEventToken := t;
        m_removedEventToken := m_removedEventToken a;
        m_deviceEunumerationCompletedEventToken :=
          m_deviceEunumerationCompletedEventToken a |}).

Definition set_removedEventToken (t : nat) : M WinBleAdapter unit :=
  fun a =>
    (Returns tt,
     {| m_deviceWatcher := m_deviceWatcher a;
        m_nearbyDevices := m_nearbyDevices a;
        m_enumerationCompletedEvent := m_enumerationCompletedEvent a;
        m_addedEventToken := m_addedEventToken a;
        m_updatedEventToken := m_updatedEventToken a;
        m_removedEventToken := t;
        m_deviceEunumerationCompletedEventToken :=
          m_deviceEunumerationCompletedEventToken a |}).

Definition set_deviceEunumerationCompletedEventToken (t : nat)
  : M WinBleAdapter unit :=
  fun a =>
    (Returns tt,
     {| m_deviceWatcher := m_deviceWatcher a;
        m_nearbyDevices := m_nearbyDevices a;
        m_enumerationCompletedEvent := m_enumerationCompletedEvent a;
        m_addedEventToken := m_addedEventToken a;
        m_updatedEventToken := m_updatedEventToken a;
        m_removedEventToken := m_removedEventToken a;
        m_deviceEunumerationCompletedEventToken := t |}).

Definition Start : M WinBleAdapter unit :=
  fun self =>
    (* Do nothing if the watcher is already started. *)
    if is_Started (Status (m_deviceWatcher self)) then (Returns tt, self)
    else
      (* Register event handlers before starting the watcher. *)
      (added <- register AddedHandler ;;
       _ <- set_addedEventToken added ;;
       updated <- register UpdatedHandler ;;
       _ <- set_updatedEventToken updated ;;
       removed <- register RemovedHandler ;;
       _ <- set_removedEventToken removed ;;
       completed <- register EnumerationCompletedHandler ;;
       _ <- set_deviceEunumerationCompletedEventToken completed ;;
       DeviceWatcher_Start) self.

(** *** The bodies of the four lambdas *)

(** Added: [m_nearbyDevices.insert(deviceInfo)]; an object that is already
    an element is not inserted again.  Where a new element comes in the
    iteration order is up to the container; the list puts it last, and what
    is stated about the table after an insertion is stated up to the order
    of the list. *)
Definition on_Added (deviceInfo : DeviceInformation) : M WinBleAdapter unit :=
  fun self =>
    if existsb (fun d => Nat.eqb (Object d) (Object deviceInfo))
               (m_nearbyDevices self)
    then (Returns tt, self)
    else (Returns tt,
          set_nearbyDevices (m_nearbyDevices self ++ [deviceInfo]) self).

Definition same_id (deviceInfoUpdate : DeviceInformationUpdate)
    (deviceInfo : DeviceInformation) : bool :=
  String.eqb (Id deviceInfo) (UpdateId deviceInfoUpdate).

(** Updated: the entry found is updated in place; nothing happens when
    [find_if] returns [cend()]. *)
Definition on_Updated (deviceInfoUpdate : DeviceInformationUpdate)
  : M WinBleAdapter unit :=
  fun self =>
    let table := m_nearbyDevices self in
    let foundDeviceInfoItr := find_if (same_id deviceInfoUpdate) table in
    if negb (foundDeviceInfoItr =? List.length table)%nat then
      match nth_error table foundDeviceInfoItr with
      | Some d =>
          (Returns tt,
           set_nearbyDevices
             (firstn foundDeviceInfoItr table
              ++ Update d deviceInfoUpdate :: skipn (S foundDeviceInfoItr) table)
             self)
      | None => (Undefined, self)
      end
    else (Returns tt, self).

(** Removed: [m_nearbyDevices.erase(std::find_if(...))], with nothing
    between the search and the erasure. *)
Definition on_Removed (deviceInfoUpdate : DeviceInformationUpdate)
  : M WinBleAdapter unit :=
  fun self =>
    let table := m_nearbyDevices self in
    match erase table (find_if (same_id deviceInfoUpdate) table) with
    | Returns table' => (Returns tt, set_nearbyDevices table' self)
    | Throws e => (Throws e, self)
    | Undefined => (Undefined, self)
    end.

(** EnumerationCompleted: [m_enumerationCompletedEvent.notify_all()] *)
Definition on_EnumerationCompleted : M WinBleAdapter unit :=
  fun self =>
    (Returns tt,
     {| m_deviceWatcher := m_deviceWatcher self;
        m_nearbyDevices := m_nearbyDevices self;
        m_enumerationCompletedEvent := S (m_enumerationCompletedEvent self);
        m_addedEventToken := m_addedEventToken self;
        m_updatedEventToken := m_updatedEventToken self;
        m_removedEventToken := m_removedEventToken self;
        m_deviceEunumerationCompletedEventToken :=
          m_deviceEunumerationCompletedEventToken self |}).

(** *** Connect (winble.cpp, lines 312-339) *)

(** [std::find_if] with the lambda [GetDeviceAddress(deviceInfo) == address];
    an exception of the lambda leaves the search. *)
Fixpoint find_address (table : list DeviceInformation) (address : string)
  : outcome (option DeviceInformation) :=
  match table with
  | [] => Returns None
  | deviceInfo :: rest =>
      match GetDeviceAddress deviceInfo with
      | Returns a =>
          if String.eqb a address then Returns (Some deviceInfo)
          else find_address rest address
      | Throws e => Throws e
      | Undefined => Undefined
      end
  end.

Section Connect.

Variable ULONG_MAX : Z.
Variable radio : Radio.

Definition log (c : Call) (s : Stack) : Stack :=
  {| calls := calls s ++ [c]; value_changed := value_changed s |}.

(** [BluetoothLEDevice::FromIdAsync(id).get()] *)
Definition FromId (id : string) : M Stack (option BluetoothLEDevice) :=
  fun s => (Returns (FromIdAsync_get radio (calls s) id),
            log (FromIdAsync id) s).

(** [BluetoothLEDevice::FromBluetoothAddressAsync(address).get()] *)
Definition FromBluetoothAddress (address : Z)
  : M Stack (option BluetoothLEDevice) :=
  fun s => (Returns (FromBluetoothAddressAsync_get radio (calls s) address),
            log (FromBluetoothAddressAsync address) s).

(** [return { std::move(device) }]: the constructor of the session runs on
    the device obtained; it calls a method of the device, which a null
    device does not have. *)
Definition make_session (device : option BluetoothLEDevice)
  : M Stack WinBleDevice :=
  match device with
  | Some d => lift (WinBleDevice_new d)
  | None => undefined
  end.

Definition Connect (self : WinBleAdapter) (address : string)
  : M Stack WinBleDevice :=
  deviceInfoItr <- lift (find_address (m_nearbyDevices self) address) ;;
  match deviceInfoItr with
  | Some deviceInfo =>
      device <- FromId (Id deviceInfo) ;;
      make_session device
  | None =>
      device <- FromBluetoothAddress (MacAddressStringToUint ULONG_MAX address) ;;
      make_session device
  end.

End Connect.

(** ** A peripheral, a radio and an adapter to evaluate the code on *)

Module Sample.

Definition uuid_notify : guid :=
  {| Data1 := 583620805; Data2 := 51282; Data3 := 40496;
     Data4 := [x01; x02; x03; x04; x05; x06; x07; x08] |}.

Definition uuid_write : guid :=
  {| Data1 := 583620806; Data2 := 51282; Data3 := 40496;
     Data4 := [x01; x02; x03; x04; x05; x06; x07; x08] |}.

Definition uuid_unknown : guid :=
  {| Data1 := 1; Data2 := 2; Data3 := 3;
     Data4 := [x00; x00; x00; x00; x00; x00; x00; x00] |}.

Definition c_notify : GattCharacteristic :=
  {| Uuid := uuid_notify; AttributeHandle := 14 |}.

Definition c_write : GattCharacteristic :=
  {| Uuid := uuid_write; AttributeHandle := 17 |}.

Definition service_ok : GattDeviceService :=
  {| ServiceUuid := uuid_unknown;
     GetCharacteristicsAsync :=
       {| CharacteristicsStatus := Success;
          Characteristics := [c_notify; c_write] |} |}.

Definition service_unreachable : GattDeviceService :=
  {| ServiceUuid := uuid_unknown;
     GetCharacteristicsAsync :=
       {| CharacteristicsStatus := Unreachable; Characteristics := [] |} |}.

Definition peripheral : BluetoothLEDevice :=
  {| GetGattServicesAsync :=
       {| ServicesStatus := Success; Services := [service_ok] |} |}.

(** The second service cannot be enumerated. *)
Definition flaky_peripheral : BluetoothLEDevice :=
  {| GetGattServicesAsync :=
       {| ServicesStatus := Success;
          Services := [service_ok; service_unreachable] |} |}.

Definition session : WinBleDevice :=
  {| m_device := peripheral; m_characteristics := [c_notify; c_write] |}.

(** A radio on which every request succeeds. *)
Definition good_radio : Radio :=
  {| FromIdAsync_get := fun _ _ => Some peripheral;
     FromBluetoothAddressAsync_get := fun _ _ => Some peripheral;
     WriteValueAsync_get := fun _ _ _ => Success;
     WriteDescriptor_get := fun _ _ => Success |}.

(** A radio on which the peripheral has gone out of reach. *)
Definition lost_radio : Radio :=
  {| FromIdAsync_get := fun _ _ => None;
     FromBluetoothAddressAsync_get := fun _ _ => None;
     WriteValueAsync_get := fun _ _ _ => Unreachable;
     WriteDescriptor_get := fun _ _ => Unreachable |}.

Definition idle : Stack := {| calls := []; value_changed := [] |}.

Definition sphero : DeviceInformation :=
  {| Object := 1; Id := "BluetoothLE#dev-1"; Name := "SK-1234";
     Properties := [("System.Devices.Aep.DeviceAddress", "aa:bb:cc:dd:ee:ff");
                    ("System.Devices.Aep.IsConnected", "false");
                    ("System.Devices.Aep.Bluetooth.Le.AddressType", "Random")
                   ]%string |}.

(** A record that carries none of the requested properties. *)
Definition nameless : DeviceInformation :=
  {| Object := 2; Id := "BluetoothLE#dev-2"; Name := "";
     Properties := [] |}.

Definition adapter_with (status : DeviceWatcherStatus)
    (table : list DeviceInformation) : WinBleAdapter :=
  {| m_deviceWatcher :=
       {| Status := status;
          registered := [AddedHandler; UpdatedHandler; RemovedHandler;
                         EnumerationCompletedHandler] |};
     m_nearbyDevices := table;
     m_enumerationCompletedEvent := O;
     m_addedEventToken := 0;
     m_updatedEventToken := 1;
     m_removedEventToken := 2;
     m_deviceEunumerationCompletedEventToken := 3 |}.

Definition removed_other : DeviceInformationUpdate :=
  {| UpdateId := "BluetoothLE#dev-9"; UpdateProperties := [] |}.

End Sample.

(** ** Scan (winble.cpp, lines 289-310) *)

(** A [py::dict] with string keys and values, as the list of its items in
    insertion order. *)
Definition dict : Type := list (string * string).

(** The range-for of [Scan] over [m_nearbyDevices], with the list [devices]
    built so far. *)
Fixpoint Scan_loop (table : list DeviceInformation) (devices : list dict)
  : outcome (list dict) :=
  match table with
  | [] => Returns devices
  | deviceInfo :: rest =>
      match GetDeviceAddress deviceInfo with
      | Returns address =>
          let device := [("name", Name deviceInfo); ("address", address)]%string in
          Scan_loop rest (devices ++ [device])
      | Throws e => Throws e
      | Undefined => Undefined
      end
  end.

(** [Scan] from the point where [m_enumerationCompletedEvent.wait(lock)]
    has returned: the statements after the wait, run on the adapter as it
    is at that moment. *)
Definition Scan_devices (self : WinBleAdapter) : outcome (list dict) :=
  Scan_loop (m_nearbyDevices self) [].

(** [device] is the item that the loop of [Scan] appends for [deviceInfo]. *)
Definition scanned (deviceInfo : DeviceInformation) (device : dict) : Prop :=
  exists address,
    GetDeviceAddress deviceInfo = Returns address
    /\ device = [("name", Name deviceInfo); ("address", address)]%string.

(** ** The events of the watcher *)

Inductive WatcherEvent : Type :=
| AddedEvent (deviceInfo : DeviceInformation)
| UpdatedEvent (deviceInfoUpdate : DeviceInformationUpdate)
| RemovedEvent (deviceInfoUpdate : DeviceInformationUpdate)
| EnumerationCompletedEvent.

(** A registered lambda invoked for an event: it runs when the event is
    the one it was registered on. *)
Definition invoke (h : WatcherHandler) (ev : WatcherEvent)
  : M WinBleAdapter unit :=
  match h, ev with
  | AddedHandler, AddedEvent deviceInfo => on_Added deviceInfo
  | UpdatedHandler, UpdatedEvent deviceInfoUpdate => on_Updated deviceInfoUpdate
  | RemovedHandler, RemovedEvent deviceInfoUpdate => on_Removed deviceInfoUpdate
  | EnumerationCompletedHandler, EnumerationCompletedEvent =>
      on_EnumerationCompleted
  | _, _ => ret tt
  end.

Fixpoint invoke_all (hs : list WatcherHandler) (ev : WatcherEvent)
  : M WinBleAdapter unit :=
  match hs with
  | [] => ret tt
  | h :: rest => _ <- invoke h ev ;; invoke_all rest ev
  end.

(** The watcher raising an event: every registration is invoked, in
    registration order. *)
Definition raise (ev : WatcherEvent) : M WinBleAdapter unit :=
  fun self => invoke_all (registered (m_deviceWatcher self)) ev self.

Definition is_RemovedHandler (h : WatcherHandler) : bool :=
  match h with RemovedHandler => true | _ => false end.

Definition is_AddedHandler (h : WatcherHandler) : bool :=
  match h with AddedHandler => true | _ => false end.

(** [deviceInfo] is an element of the table: its object is. *)
Definition holds (table : list DeviceInformation) (deviceInfo : DeviceInformation)
  : bool :=
  existsb (fun d => Nat.eqb (Object d) (Object deviceInfo)) table.

(** ** More peripherals and tables to evaluate the code on *)

Module Fixture.

(** A second characteristic with the UUID of [Sample.c_notify], found in a
    later service. *)
Definition c_shadowed : GattCharacteristic :=
  {| Uuid := Sample.uuid_notify; AttributeHandle := 33 |}.

Definition service_late : GattDeviceService :=
  {| ServiceUuid := Sample.uuid_unknown;
     GetCharacteristicsAsync :=
       {| CharacteristicsStatus := Success;
          Characteristics := [c_shadowed] |} |}.

Definition twin_peripheral : BluetoothLEDevice :=
  {| GetGattServicesAsync :=
       {| ServicesStatus := Success;
          Services := [Sample.service_ok; service_late] |} |}.

Definition twin_session : WinBleDevice :=
  {| m_device := twin_peripheral;
     m_characteristics := [Sample.c_notify; Sample.c_write; c_shadowed] |}.

(** A radio on which the peripheral refuses every request. *)
Definition denying_radio : Radio :=
  {| FromIdAsync_get := fun _ _ => None;
     FromBluetoothAddressAsync_get := fun _ _ => None;
     WriteValueAsync_get := fun _ _ _ => AccessDenied;
     WriteDescriptor_get := fun _ _ => AccessDenied |}.

Definition id_notify : list byte := EncodeUuid BigEndian Sample.uuid_notify.
Definition id_write : list byte := EncodeUuid BigEndian Sample.uuid_write.
Definition id_unknown : list byte := EncodeUuid BigEndian Sample.uuid_unknown.

Definition bolt : DeviceInformation :=
  {| Object := 3; Id := "BluetoothLE#dev-3"; Name := "SB-5678";
     Properties := [("System.Devices.Aep.DeviceAddress", "11:22:33:44:55:66");
                    ("System.Devices.Aep.IsConnected", "false");
                    ("System.Devices.Aep.Bluetooth.Le.AddressType", "Public")
                   ]%string |}.

Definition removed_sphero : DeviceInformationUpdate :=
  {| UpdateId := "BluetoothLE#dev-1"; UpdateProperties := [] |}.

Definition updated_sphero : DeviceInformationUpdate :=
  {| UpdateId := "BluetoothLE#dev-1";
     UpdateProperties := [("System.Devices.Aep.IsConnected", "true")]%string |}.

(** An adapter on which [Start] ran twice, so that every handler is
    registered twice. *)
Definition restarted (table : list DeviceInformation) : WinBleAdapter :=
  {| m_deviceWatcher :=
       {| Status := EnumerationCompleted;
          registered := [AddedHandler; UpdatedHandler; RemovedHandler;
                         EnumerationCompletedHandler;
                         AddedHandler; UpdatedHandler; RemovedHandler;
                         EnumerationCompletedHandler] |};
     m_nearbyDevices := table;
     m_enumerationCompletedEvent := 1;
     m_addedEventToken := 4;
     m_updatedEventToken := 5;
     m_removedEventToken := 6;
     m_deviceEunumerationCompletedEventToken := 7 |}.

End Fixture.

(** * Properties *)

(** ** Address parsing *)

Example mac_plain :
  MacAddressStringToUint ULONG_MAX_LP64 "AA:BB:CC:DD:EE:FF" = 187723572702975.
Proof. reflexivity. Qed.

Example mac_0x : MacAddressStringToUint ULONG_MAX_LLP64 "0x1f" = 31.
Proof. reflexivity. Qed.

Example mac_0x_only : MacAddressStringToUint ULONG_MAX_LLP64 "0xg" = 0.
Proof. reflexivity. Qed.

(** With a 32-bit [unsigned long] a full address does not fit and
    [strtoul] answers [ULONG_MAX]. *)
Example mac_saturates :
  MacAddressStringToUint ULONG_MAX_LLP64 "AA:BB:CC:DD:EE:FF" = 4294967295.
Proof. reflexivity. Qed.

Example mac_garbage : MacAddressStringToUint ULONG_MAX_LLP64 "zz:zz" = 0.
Proof. reflexivity. Qed.

Lemma erase_remove_absent (c : ascii) (s : string) :
  ~ In c (list_ascii_of_string (CRuntime.erase_remove c s)).
Proof.
  induction s as [|a rest IH]; simpl; [tauto|].
  destruct (Ascii.eqb a c) eqn:E; [exact IH|].
  simpl. intros [H|H]; [|exact (IH H)].
  subst a. rewrite Ascii.eqb_refl in E. discriminate.
Qed.

Lemma erase_remove_idem (c : ascii) (s : string) :
  CRuntime.erase_remove c (CRuntime.erase_remove c s) = CRuntime.erase_remove c s.
Proof.
  induction s as [|a rest IH]; simpl; [reflexivity|].
  destruct (Ascii.eqb a c) eqn:E; [exact IH|].
  simpl. rewrite E, IH. reflexivity.
Qed.

Lemma hex_not_space (a : ascii) :
  CRuntime.is_hex_digit a = true -> CRuntime.isspace a = false.
Proof.
  destruct a as [[] [] [] [] [] [] [] []]; vm_compute; congruence.
Qed.

Lemma hex_not_x (a : ascii) :
  CRuntime.is_hex_digit a = true -> (Ascii.eqb a "x" || Ascii.eqb a "X") = false.
Proof.
  destruct a as [[] [] [] [] [] [] [] []]; vm_compute; congruence.
Qed.

Lemma hex_not_sign (a : ascii) (rest : string) :
  CRuntime.is_hex_digit a = true ->
  CRuntime.take_sign (String a rest) = (false, String a rest).
Proof.
  destruct a as [[] [] [] [] [] [] [] []]; vm_compute; congruence.
Qed.

(** On a string of hexadecimal digits strtoul has nothing to skip. *)
Lemma all_hex_subject (s : string) :
  all_hex s = true ->
  CRuntime.take_sign (CRuntime.skip_spaces s) = (false, s)
  /\ CRuntime.skip_0x s = s.
Proof.
  destruct s as [|a rest]; [intros _; split; reflexivity|].
  simpl all_hex. intros H. apply andb_true_iff in H. destruct H as [Ha Hrest].
  split.
  - simpl CRuntime.skip_spaces. rewrite (hex_not_space a Ha).
    apply hex_not_sign. exact Ha.
  - destruct rest as [|x rest']; [destruct a as [[] [] [] [] [] [] [] []]; reflexivity|].
    simpl in Hrest. apply andb_true_iff in Hrest. destruct Hrest as [Hx _].
    unfold CRuntime.skip_0x.
    destruct rest' as [|d rest'']; [destruct a as [[] [] [] [] [] [] [] []]; reflexivity|].
    rewrite (hex_not_x x Hx). simpl.
    destruct a as [[] [] [] [] [] [] [] []]; reflexivity.
Qed.

(** C1 (as amended): [MacAddressStringToUint] hands [strtoul] the input
    with every colon removed.  Whenever no hexadecimal digit stands where
    [strtoul] starts converting (after leading white space, an optional sign
    and an optional 0x prefix) the result is exactly 0, and whenever the
    colon-free text consists of hexadecimal digits whose value fits in
    [unsigned long] the result is that value. *)
Theorem MacAddressStringToUint_parse (ULONG_MAX : Z) (s : string) :
  0 <= ULONG_MAX ->
  let t := CRuntime.erase_remove ":" s in
  MacAddressStringToUint ULONG_MAX s = CRuntime.strtoul16 ULONG_MAX t
  /\ ~ In ":"%char (list_ascii_of_string t)
  /\ (CRuntime.subject_digits t = [] -> MacAddressStringToUint ULONG_MAX s = 0)
  /\ (all_hex t = true ->
      CRuntime.hex_value (CRuntime.hex_run t) <= ULONG_MAX ->
      MacAddressStringToUint ULONG_MAX s = CRuntime.hex_value (CRuntime.hex_run t)).
Proof.
  intros Hum t. split; [reflexivity|]. split; [apply erase_remove_absent|].
  unfold MacAddressStringToUint, CRuntime.strtoul16, CRuntime.subject_digits.
  fold t. split.
  - destruct (CRuntime.take_sign (CRuntime.skip_spaces t)) as [neg body].
    simpl snd. intros ->. change (CRuntime.hex_value []) with 0.
    destruct (ULONG_MAX <? 0) eqn:E; [apply Z.ltb_lt in E; lia|].
    destruct neg; [|reflexivity].
    rewrite Z.sub_0_r. apply Z.mod_same. lia.
  - intros Hhex Hfit.
    destruct (all_hex_subject t Hhex) as [-> ->].
    destruct (ULONG_MAX <? _) eqn:E; [apply Z.ltb_lt in E; lia|reflexivity].
Qed.

Lemma MacAddressStringToUint_parse_witness :
  MacAddressStringToUint ULONG_MAX_LLP64 "zz:zz" = 0
  /\ MacAddressStringToUint ULONG_MAX_LP64 "AA:BB:CC:DD:EE:FF" = 187723572702975.
Proof.
  split.
  - destruct (MacAddressStringToUint_parse ULONG_MAX_LLP64 "zz:zz")
      as (_ & _ & Hzero & _); [unfold ULONG_MAX_LLP64; lia|].
    apply Hzero. reflexivity.
  - destruct (MacAddressStringToUint_parse ULONG_MAX_LP64 "AA:BB:CC:DD:EE:FF")
      as (_ & _ & _ & Hval); [unfold ULONG_MAX_LP64; lia|].
    apply Hval; [reflexivity | vm_compute; discriminate].
Defined.

(** C1 (as stated) fails: after colon removal the text "-1" starts with no
    hexadecimal digit, yet the sign is accepted and the digit converted, so
    the result is the negation of 1 in [unsigned long], not 0. *)
Lemma MacAddressStringToUint_minus_one :
  CRuntime.hex_run (CRuntime.erase_remove ":" "-1") = []
  /\ MacAddressStringToUint ULONG_MAX_LLP64 "-1" = 4294967295
  /\ MacAddressStringToUint ULONG_MAX_LP64 "-1" = 18446744073709551615
  /\ MacAddressStringToUint ULONG_MAX_LLP64 "-1" <> 0.
Proof. repeat split; try reflexivity. vm_compute. discriminate. Qed.

(** C9: parsing is insensitive to the separator: an address text and the
    same text with its colons removed parse to the same number, in
    particular "AA:BB:CC:DD:EE:FF" and "AABBCCDDEEFF". *)
Theorem MacAddressStringToUint_separator_insensitive (ULONG_MAX : Z) (s : string) :
  MacAddressStringToUint ULONG_MAX s
  = MacAddressStringToUint ULONG_MAX (CRuntime.erase_remove ":" s)
  /\ MacAddressStringToUint ULONG_MAX "AA:BB:CC:DD:EE:FF"
     = MacAddressStringToUint ULONG_MAX "AABBCCDDEEFF".
Proof.
  split; [|reflexivity].
  unfold MacAddressStringToUint. rewrite erase_remove_idem. reflexivity.
Qed.

(** ** GUID encoding *)

Lemma Z_of_byte_range (b : byte) : 0 <= Z_of_byte b < 256.
Proof.
  unfold Z_of_byte. pose proof (Byte.to_N_bounded b). lia.
Qed.

Lemma Z_of_byte_of_Z (v : Z) : Z_of_byte (byte_of_Z v) = v mod 256.
Proof.
  pose proof (Z.mod_pos_bound v 256 ltac:(lia)) as Hm.
  unfold byte_of_Z, Z_of_byte.
  destruct (Byte.of_N (Z.to_N (v mod 256))) as [b|] eqn:E.
  - apply Byte.to_of_N in E. rewrite E. apply Z2N.id. lia.
  - apply Byte.of_N_None_iff in E. lia.
Qed.

Lemma byte_of_Z_of_byte (r : Z) (b : byte) : byte_of_Z (r * 256 + Z_of_byte b) = b.
Proof.
  pose proof (Z_of_byte_range b) as Hb.
  unfold byte_of_Z.
  rewrite Z.add_comm, Z_mod_plus_full, Z.mod_small by lia.
  unfold Z_of_byte. rewrite N2Z.id, Byte.of_to_N. reflexivity.
Qed.

Lemma uint_of_be_snoc (l : list byte) (b : byte) :
  uint_of_be (l ++ [b]) = uint_of_be l * 256 + Z_of_byte b.
Proof. unfold uint_of_be. rewrite fold_left_app. reflexivity. Qed.

Lemma be_of_uint_length (n : nat) : forall v, List.length (be_of_uint n v) = n.
Proof.
  induction n as [|k IH]; intros v; simpl; [reflexivity|].
  rewrite length_app, IH. simpl. lia.
Qed.

Lemma uint_of_be_range (bs : list byte) :
  0 <= uint_of_be bs < 256 ^ Z.of_nat (List.length bs).
Proof.
  induction bs as [|b l IH] using rev_ind; [vm_compute; split; congruence|].
  rewrite uint_of_be_snoc, length_app. simpl List.length.
  rewrite Nat2Z.inj_add, Z.pow_add_r by lia.
  pose proof (Z_of_byte_range b). change (256 ^ Z.of_nat 1) with 256. nia.
Qed.

Lemma uint_of_be_of_uint (n : nat) :
  forall v, uint_of_be (be_of_uint n v) = v mod 256 ^ Z.of_nat n.
Proof.
  induction n as [|k IH]; intros v.
  - simpl. rewrite Z.mod_1_r. reflexivity.
  - cbn [be_of_uint]. rewrite uint_of_be_snoc, IH, Z_of_byte_of_Z.
    rewrite Nat2Z.inj_succ, Z.pow_succ_r by lia.
    rewrite Z.rem_mul_r by (try apply Z.pow_pos_nonneg; lia). lia.
Qed.

Lemma be_of_uint_of_be (bs : list byte) :
  be_of_uint (List.length bs) (uint_of_be bs) = bs.
Proof.
  induction bs as [|b l IH] using rev_ind; [reflexivity|].
  rewrite length_app, Nat.add_comm. cbn [List.length Nat.add be_of_uint].
  rewrite uint_of_be_snoc, byte_of_Z_of_byte.
  pose proof (Z_of_byte_range b).
  rewrite Z.div_add_l, Z.div_small, Z.add_0_r, IH by lia. reflexivity.
Qed.

Lemma write_uint_length (bo : ByteOrder) (n : nat) (v : Z) :
  List.length (write_uint bo n v) = n.
Proof.
  destruct bo; simpl; [rewrite length_rev|]; apply be_of_uint_length.
Qed.

Lemma read_write_uint (bo : ByteOrder) (n : nat) (v : Z) :
  0 <= v < 256 ^ Z.of_nat n -> read_uint bo (write_uint bo n v) = v.
Proof.
  intros Hv. destruct bo; simpl; [rewrite rev_involutive|];
    rewrite uint_of_be_of_uint; apply Z.mod_small; exact Hv.
Qed.

Lemma write_read_uint (bo : ByteOrder) (bs : list byte) :
  write_uint bo (List.length bs) (read_uint bo bs) = bs.
Proof.
  destruct bo; simpl.
  - rewrite <- (length_rev bs), be_of_uint_of_be. apply rev_involutive.
  - apply be_of_uint_of_be.
Qed.

Lemma read_uint_range (bo : ByteOrder) (bs : list byte) :
  0 <= read_uint bo bs < 256 ^ Z.of_nat (List.length bs).
Proof.
  destruct bo; simpl; [rewrite <- (length_rev bs)|]; apply uint_of_be_range.
Qed.

Lemma firstn_app_len {A} (n : nat) (a b : list A) :
  List.length a = n -> firstn n (a ++ b) = a.
Proof.
  intros <-. rewrite firstn_app, Nat.sub_diag, firstn_all. simpl.
  apply app_nil_r.
Qed.

Lemma skipn_app_len {A} (n : nat) (a b : list A) :
  List.length a = n -> skipn n (a ++ b) = b.
Proof.
  intros <-. rewrite skipn_app, Nat.sub_diag, skipn_all. reflexivity.
Qed.

(** Reading back what [WriteGuid] wrote gives the GUID written. *)
Lemma ReadGuid_WriteGuid (bo : ByteOrder) (g : guid) :
  valid_guid g -> ReadGuid bo (WriteGuid bo g) = Returns g.
Proof.
  intros (H1 & H2 & H3 & H4). unfold ReadGuid, WriteGuid.
  set (w1 := write_uint bo 4 (Data1 g)).
  set (w2 := write_uint bo 2 (Data2 g)).
  set (w3 := write_uint bo 2 (Data3 g)).
  assert (L1 : List.length w1 = 4%nat) by apply write_uint_length.
  assert (L2 : List.length w2 = 2%nat) by apply write_uint_length.
  assert (L3 : List.length w3 = 2%nat) by apply write_uint_length.
  replace (List.length (w1 ++ w2 ++ w3 ++ Data4 g) <? 16)%nat with false
    by (rewrite !length_app, L1, L2, L3, H4; reflexivity).
  rewrite (firstn_app_len 4 w1) by exact L1.
  rewrite (skipn_app_len 4 w1) by exact L1.
  rewrite (firstn_app_len 2 w2) by exact L2.
  replace (w1 ++ w2 ++ w3 ++ Data4 g) with ((w1 ++ w2) ++ w3 ++ Data4 g)
    by (rewrite <- app_assoc; reflexivity).
  rewrite (skipn_app_len 6 (w1 ++ w2)) by (rewrite length_app, L1, L2; reflexivity).
  rewrite (firstn_app_len 2 w3) by exact L3.
  replace ((w1 ++ w2) ++ w3 ++ Data4 g) with ((w1 ++ w2 ++ w3) ++ Data4 g)
    by (rewrite <- !app_assoc; reflexivity).
  rewrite (skipn_app_len 8 (w1 ++ w2 ++ w3))
    by (rewrite !length_app, L1, L2, L3; reflexivity).
  rewrite <- H4, firstn_all. subst w1 w2 w3.
  rewrite !read_write_uint by assumption.
  destruct g; reflexivity.
Qed.

(** Writing what [ReadGuid] read from sixteen bytes gives them back. *)
Lemma WriteGuid_ReadGuid (bo : ByteOrder) (buf : list byte) :
  List.length buf = 16%nat ->
  exists g, ReadGuid bo buf = Returns g /\ valid_guid g /\ WriteGuid bo g = buf.
Proof.
  intros Hlen.
  do 17 (destruct buf as [|? buf]; try discriminate Hlen).
  eexists. split; [reflexivity|]. cbn [firstn skipn]. split.
  - unfold valid_guid. cbn [Data1 Data2 Data3 Data4].
    repeat split; try reflexivity;
      match goal with
      | |- context [read_uint bo ?l] =>
          pose proof (read_uint_range bo l) as Hr; simpl List.length in Hr
      end;
      first [apply Hr | (eapply Z.lt_le_trans; [apply Hr | vm_compute; congruence])].
  - unfold WriteGuid. cbn [Data1 Data2 Data3 Data4].
    repeat match goal with
           | |- context [write_uint bo _ (read_uint bo ?l)] =>
               let E := fresh "E" in
               pose proof (write_read_uint bo l) as E;
               cbn [List.length] in E; rewrite E; clear E
           end.
    reflexivity.
Qed.

(** C2: the decoder [BytesToGuid] reads the sixteen bytes in the platform's
    GUID layout and reverses Data4; the encoder is its exact inverse: every
    128-bit GUID survives encoding followed by decoding, and every sixteen
    bytes survive decoding followed by encoding. *)
Theorem BytesToGuid_EncodeUuid_bijection (byte_order : ByteOrder) :
  (forall u, valid_guid u ->
     List.length (EncodeUuid byte_order u) = 16%nat
     /\ BytesToGuid byte_order (EncodeUuid byte_order u) = Returns u)
  /\ (forall guidBytes, List.length guidBytes = 16%nat ->
        exists u, BytesToGuid byte_order guidBytes = Returns u
                  /\ valid_guid u
                  /\ Data4 u = rev (firstn 8 (skipn 8 guidBytes))
                  /\ EncodeUuid byte_order u = guidBytes).
Proof.
  split.
  - intros u Hu.
    assert (Hv : valid_guid {| Data1 := Data1 u; Data2 := Data2 u;
                               Data3 := Data3 u; Data4 := rev (Data4 u) |}).
    { destruct Hu as (H1 & H2 & H3 & H4). repeat split; try apply H1;
        try apply H2; try apply H3. cbn. rewrite length_rev. exact H4. }
    split.
    + unfold EncodeUuid, WriteGuid. destruct Hv as (_ & _ & _ & H4).
      rewrite !length_app, !write_uint_length, H4. reflexivity.
    + unfold BytesToGuid, EncodeUuid. rewrite (ReadGuid_WriteGuid _ _ Hv).
      cbn. rewrite rev_involutive. destruct u; reflexivity.
  - intros guidBytes Hlen.
    destruct (WriteGuid_ReadGuid byte_order guidBytes Hlen) as (g & Hr & Hv & Hw).
    unfold BytesToGuid. rewrite Hr. eexists. split; [reflexivity|].
    destruct Hv as (H1 & H2 & H3 & H4). split; [|split].
    + repeat split; try apply H1; try apply H2; try apply H3.
      cbn. rewrite length_rev. exact H4.
    + cbn. unfold ReadGuid in Hr. rewrite Hlen in Hr. cbn in Hr.
      injection Hr as <-. reflexivity.
    + unfold EncodeUuid. cbn. rewrite rev_involutive.
      destruct g; exact Hw.
Qed.

Lemma BytesToGuid_EncodeUuid_bijection_witness :
  BytesToGuid BigEndian (EncodeUuid BigEndian Sample.uuid_notify)
  = Returns Sample.uuid_notify
  /\ exists u,
       BytesToGuid LittleEndian
         [x00; x01; x02; x03; x04; x05; x06; x07;
          x08; x09; x0a; x0b; x0c; x0d; x0e; x0f] = Returns u
       /\ Data4 u = [x0f; x0e; x0d; x0c; x0b; x0a; x09; x08]
       /\ EncodeUuid LittleEndian u
          = [x00; x01; x02; x03; x04; x05; x06; x07;
             x08; x09; x0a; x0b; x0c; x0d; x0e; x0f].
Proof.
  split.
  - apply (proj1 (BytesToGuid_EncodeUuid_bijection BigEndian) Sample.uuid_notify).
    unfold valid_guid. simpl. lia.
  - destruct (proj2 (BytesToGuid_EncodeUuid_bijection LittleEndian)
                [x00; x01; x02; x03; x04; x05; x06; x07;
                 x08; x09; x0a; x0b; x0c; x0d; x0e; x0f] eq_refl)
      as (u & Hd & _ & H4 & He).
    exists u. split; [exact Hd|]. split; [exact H4|exact He].
Defined.

(** The sixteen bytes of a GUID in both byte orders. *)
Example EncodeUuid_big_endian :
  EncodeUuid BigEndian Sample.uuid_notify
  = [x22; xc9; x58; xc5; xc8; x52; x9e; x30;
     x08; x07; x06; x05; x04; x03; x02; x01].
Proof. reflexivity. Qed.

Example EncodeUuid_little_endian :
  EncodeUuid LittleEndian Sample.uuid_notify
  = [xc5; x58; xc9; x22; x52; xc8; x30; x9e;
     x08; x07; x06; x05; x04; x03; x02; x01].
Proof. reflexivity. Qed.

(** ** Discovery at connect time *)

Lemma is_Success_true (st : GattCommunicationStatus) :
  is_Success st = true <-> st = Success.
Proof. destruct st; simpl; split; congruence. Qed.

Lemma is_Success_false (st : GattCommunicationStatus) :
  is_Success st = false <-> st <> Success.
Proof. destruct st; simpl; split; congruence. Qed.

Lemma GetCharacteristics_loop_Returns (services : list GattDeviceService) :
  forall acc cs,
    GetCharacteristics_loop services acc = Returns cs ->
    (forall service, In service services ->
       CharacteristicsStatus (GetCharacteristicsAsync service) = Success)
    /\ cs = acc ++ flat_map (fun service =>
                               Characteristics (GetCharacteristicsAsync service))
                            services.
Proof.
  induction services as [|service rest IH]; intros acc cs H; simpl in H.
  - injection H as <-. split; [intros ? []|]. simpl. rewrite app_nil_r. reflexivity.
  - destruct (is_Success (CharacteristicsStatus (GetCharacteristicsAsync service)))
      eqn:E; simpl in H; [|discriminate].
    apply IH in H. destruct H as [Hall ->]. split.
    + intros x [<-|Hx]; [apply is_Success_true; exact E | apply Hall; exact Hx].
    + simpl. rewrite app_assoc. reflexivity.
Qed.

Lemma GetCharacteristics_loop_Throws (services : list GattDeviceService) :
  forall acc,
    (exists service, In service services
       /\ CharacteristicsStatus (GetCharacteristicsAsync service) <> Success) ->
    GetCharacteristics_loop services acc = Throws std_exception.
Proof.
  induction services as [|service rest IH]; intros acc (x & Hin & Hx).
  - destruct Hin.
  - simpl.
    destruct (is_Success (CharacteristicsStatus (GetCharacteristicsAsync service)))
      eqn:E; simpl; [|reflexivity].
    apply IH. destruct Hin as [<-|Hin].
    + apply is_Success_true in E. contradiction.
    + exists x. split; assumption.
Qed.

Lemma GetCharacteristics_loop_total (services : list GattDeviceService) :
  forall acc,
    (forall service, In service services ->
       CharacteristicsStatus (GetCharacteristicsAsync service) = Success) ->
    GetCharacteristics_loop services acc
    = Returns (acc ++ flat_map (fun service =>
                                  Characteristics (GetCharacteristicsAsync service))
                               services).
Proof.
  induction services as [|service rest IH]; intros acc Hall; simpl.
  - rewrite app_nil_r. reflexivity.
  - rewrite (Hall service (or_introl eq_refl)). simpl.
    rewrite IH by (intros x Hx; apply Hall; right; exact Hx).
    rewrite app_assoc. reflexivity.
Qed.

Lemma WinBleDevice_new_Returns (device : BluetoothLEDevice) (session : WinBleDevice) :
  WinBleDevice_new device = Returns session ->
  discovery_succeeds device
  /\ m_device session = device
  /\ m_characteristics session = all_characteristics device.
Proof.
  unfold WinBleDevice_new, GetCharacteristics, discovery_succeeds, all_characteristics.
  destruct (is_Success (ServicesStatus (GetGattServicesAsync device))) eqn:E;
    simpl; [|discriminate].
  destruct (GetCharacteristics_loop _ _) as [cs| |] eqn:L; try discriminate.
  intros H. injection H as <-. apply GetCharacteristics_loop_Returns in L.
  destruct L as [Hall ->]. apply is_Success_true in E. simpl. auto.
Qed.

Lemma make_session_Returns (device : option BluetoothLEDevice)
    (s s' : Stack) (session : WinBleDevice) :
  make_session device s = (Returns session, s') ->
  exists d, device = Some d /\ WinBleDevice_new d = Returns session.
Proof.
  destruct device as [d|]; simpl; unfold lift, undefined; intros H;
    [|discriminate].
  exists d. split; [reflexivity|]. congruence.
Qed.

Lemma Connect_Returns (ULONG_MAX : Z) (radio : Radio) (self : WinBleAdapter)
    (address : string) (s s' : Stack) (session : WinBleDevice) :
  Connect ULONG_MAX radio self address s = (Returns session, s') ->
  WinBleDevice_new (m_device session) = Returns session.
Proof.
  unfold Connect, bind, lift.
  destruct (find_address (m_nearbyDevices self) address) as [[d|]| |];
    try discriminate; unfold FromId, FromBluetoothAddress;
    intros H; apply make_session_Returns in H; destruct H as (dev & _ & H);
    pose proof (WinBleDevice_new_Returns _ _ H) as (_ & -> & _); exact H.
Qed.

(** C4: discovery at connect time is all or nothing.  A non-success status
    of the service enumeration, or of the characteristic enumeration of any
    service, makes the constructor of the session throw, so that [Connect]
    returns no session; and every session that the constructor or [Connect]
    returns comes from a discovery whose statuses were all Success and caches
    the characteristics of every service. *)
Theorem discovery_all_or_nothing (device : BluetoothLEDevice) :
  (ServicesStatus (GetGattServicesAsync device) <> Success
   \/ (exists service, In service (Services (GetGattServicesAsync device))
         /\ CharacteristicsStatus (GetCharacteristicsAsync service) <> Success) ->
   WinBleDevice_new device = Throws std_exception
   /\ forall s, make_session (Some device) s = (Throws std_exception, s))
  /\ (discovery_succeeds device ->
      WinBleDevice_new device
      = Returns {| m_device := device;
                   m_characteristics := all_characteristics device |})
  /\ (forall session, WinBleDevice_new device = Returns session ->
        discovery_succeeds device
        /\ m_characteristics session = all_characteristics device)
  /\ (forall ULONG_MAX radio self address s s' session,
        Connect ULONG_MAX radio self address s = (Returns session, s') ->
        discovery_succeeds (m_device session)
        /\ m_characteristics session = all_characteristics (m_device session)).
Proof.
  split; [|split; [|split]].
  - intros H.
    assert (E : WinBleDevice_new device = Throws std_exception).
    { unfold WinBleDevice_new, GetCharacteristics.
      destruct (is_Success (ServicesStatus (GetGattServicesAsync device))) eqn:E;
        simpl; [|reflexivity].
      destruct H as [H|H]; [apply is_Success_true in E; contradiction|].
      rewrite (GetCharacteristics_loop_Throws _ [] H). reflexivity. }
    split; [exact E|]. intros s. simpl. unfold lift. rewrite E. reflexivity.
  - intros [Hs Hall]. unfold WinBleDevice_new, GetCharacteristics.
    rewrite Hs. simpl. rewrite (GetCharacteristics_loop_total _ [] Hall).
    reflexivity.
  - intros session H. apply WinBleDevice_new_Returns in H. tauto.
  - intros um radio self address s s' session H.
    apply Connect_Returns, WinBleDevice_new_Returns in H. tauto.
Qed.

Lemma discovery_all_or_nothing_witness :
  WinBleDevice_new Sample.flaky_peripheral = Throws std_exception
  /\ WinBleDevice_new Sample.peripheral = Returns Sample.session.
Proof.
  split.
  - destruct (discovery_all_or_nothing Sample.flaky_peripheral) as (Hfail & _).
    apply Hfail. right. exists Sample.service_unreachable.
    split; [simpl; auto | discriminate].
  - destruct (discovery_all_or_nothing Sample.peripheral) as (_ & Hok & _).
    apply Hok. split; [reflexivity|]. intros service [<-|[]]. reflexivity.
Defined.

(** ** Characteristic lookup *)

Lemma byte_eqb_eq (a b : byte) : byte_eqb a b = true <-> a = b.
Proof.
  unfold byte_eqb. rewrite N.eqb_eq. split; [|intros ->; reflexivity].
  intros H. pose proof (Byte.of_to_N a) as Ha. rewrite H, Byte.of_to_N in Ha.
  congruence.
Qed.

Lemma bytes_eqb_eq (a : list byte) : forall b, bytes_eqb a b = true <-> a = b.
Proof.
  induction a as [|x a IH]; intros [|y b]; simpl; split; try congruence.
  - intros H. apply andb_true_iff in H. destruct H as [Hx Hr].
    apply byte_eqb_eq in Hx. apply IH in Hr. congruence.
  - intros H. injection H as -> ->. apply andb_true_iff. split.
    + apply byte_eqb_eq. reflexivity.
    + apply IH. reflexivity.
Qed.

Lemma guid_eqb_eq (a b : guid) : guid_eqb a b = true <-> a = b.
Proof.
  unfold guid_eqb. rewrite !andb_true_iff, !Z.eqb_eq, bytes_eqb_eq.
  destruct a, b; simpl. split.
  - intros [[[-> ->] ->] ->]. reflexivity.
  - intros H. injection H as -> -> -> ->. auto.
Qed.

Lemma characteristic_eqb_refl (c : GattCharacteristic) :
  characteristic_eqb c c = true.
Proof.
  unfold characteristic_eqb. rewrite Z.eqb_refl. simpl.
  apply guid_eqb_eq. reflexivity.
Qed.

Lemma find_characteristic_None (self : WinBleDevice) (g : guid) :
  find_characteristic self g = None <->
  forall c, In c (m_characteristics self) -> Uuid c <> g.
Proof.
  unfold find_characteristic. induction (m_characteristics self) as [|x l IH]; simpl.
  - split; [intros _ c []|reflexivity].
  - destruct (guid_eqb g (Uuid x)) eqn:E.
    + split; [discriminate|]. intros H. apply guid_eqb_eq in E.
      exfalso. apply (H x); [left; reflexivity | congruence].
    + rewrite IH. split.
      * intros H c [<-|Hc]; [|apply H; exact Hc].
        intros Heq. rewrite Heq in E.
        assert (guid_eqb g g = true) by (apply guid_eqb_eq; reflexivity).
        congruence.
      * intros H c Hc. apply H. right. exact Hc.
Qed.

Lemma find_characteristic_Some (self : WinBleDevice) (g : guid)
    (c : GattCharacteristic) :
  find_characteristic self g = Some c ->
  In c (m_characteristics self) /\ Uuid c = g.
Proof.
  unfold find_characteristic. intros H. apply find_some in H.
  destruct H as [Hin Heq]. apply guid_eqb_eq in Heq. auto.
Qed.

(** ** Writing to a characteristic *)

(** A write to a UUID that no cached characteristic has throws the plain
    [std::exception] of the lookup and leaves the stack untouched: no write
    request was made. *)
Lemma WriteToCharacteristic_lookup_error (byte_order : ByteOrder) (radio : Radio)
    (self : WinBleDevice) (characteristicId data : list byte) (s : Stack)
    (characteristicGuid : guid) :
  BytesToGuid byte_order characteristicId = Returns characteristicGuid ->
  (forall c, In c (m_characteristics self) -> Uuid c <> characteristicGuid) ->
  WriteToCharacteristic byte_order radio self characteristicId data s
  = (Throws std_exception, s).
Proof.
  intros Hg Hnone. unfold WriteToCharacteristic, bind, lift. rewrite Hg.
  apply find_characteristic_None in Hnone. rewrite Hnone. reflexivity.
Qed.

(** A write that the stack answers with a status other than Success
    throws, after that one request, an exception that holds the message and
    is the same whatever the status was. *)
Lemma WriteToCharacteristic_write_error (byte_order : ByteOrder) (radio : Radio)
    (self : WinBleDevice) (characteristicId data : list byte) (s : Stack)
    (characteristicGuid : guid) (c : GattCharacteristic) :
  BytesToGuid byte_order characteristicId = Returns characteristicGuid ->
  find_characteristic self characteristicGuid = Some c ->
  WriteValueAsync_get radio (calls s) c data <> Success ->
  WriteToCharacteristic byte_order radio self characteristicId data s
  = (Throws (std_exception_what
               "WinBleDevice: Error sending data to bluetooth device."),
     {| calls := calls s ++ [WriteValueAsync c data];
        value_changed := value_changed s |}).
Proof.
  intros Hg Hc Hst. unfold WriteToCharacteristic, bind, lift.
  rewrite Hg, Hc. unfold WriteValue, throw.
  apply is_Success_false in Hst. rewrite Hst. reflexivity.
Qed.

(** C5 on the code: a write to a UUID that is not in the cache throws the
    plain [std::exception] of the lookup without any request, as the claim
    says.  A write that the stack answers with Unreachable (1) and one that
    it answers with AccessDenied (3) both throw, after the one write
    request, the same exception: it holds the fixed message, and the status
    code handed to its constructor is not part of it, so the error does not
    name the status returned. *)
Theorem WriteToCharacteristic_error_drops_status :
  status_int Unreachable = 1
  /\ status_int AccessDenied = 3
  /\ WriteToCharacteristic BigEndian Sample.lost_radio Sample.session
       Fixture.id_write [x01; x02] Sample.idle
     = (Throws (std_exception_what
                  "WinBleDevice: Error sending data to bluetooth device."),
        {| calls := [WriteValueAsync Sample.c_write [x01; x02]];
           value_changed := [] |})
  /\ WriteToCharacteristic BigEndian Fixture.denying_radio Sample.session
       Fixture.id_write [x01; x02] Sample.idle
     = WriteToCharacteristic BigEndian Sample.lost_radio Sample.session
         Fixture.id_write [x01; x02] Sample.idle
  /\ WriteToCharacteristic BigEndian Sample.good_radio Sample.session
       Fixture.id_unknown [x01; x02] Sample.idle
     = (Throws std_exception, Sample.idle).
Proof. repeat split. Qed.

(** A write that the stack answers with Success returns normally. *)
Lemma WriteToCharacteristic_Success (byte_order : ByteOrder) (radio : Radio)
    (self : WinBleDevice) (characteristicId data : list byte) (s : Stack)
    (g : guid) (c : GattCharacteristic) :
  BytesToGuid byte_order characteristicId = Returns g ->
  find_characteristic self g = Some c ->
  WriteValueAsync_get radio (calls s) c data = Success ->
  WriteToCharacteristic byte_order radio self characteristicId data s
  = (Returns tt, {| calls := calls s ++ [WriteValueAsync c data];
                    value_changed := value_changed s |}).
Proof.
  intros Hg Hc Hst. unfold WriteToCharacteristic, bind, lift.
  rewrite Hg, Hc. unfold WriteValue. rewrite Hst. reflexivity.
Qed.

(** ** Subscribing to notifications *)

(** C7: with a handler and a cached characteristic, [Subscribe] first writes
    the Notify value to the configuration descriptor.  When that write is
    answered with Success the handler is registered next, and nothing else
    happens; when it is answered with any other status [Subscribe] throws
    and no handler has been registered. *)
Theorem Subscribe_descriptor_first (byte_order : ByteOrder) (radio : Radio)
    (self : WinBleDevice) (characteristicId : list byte) (handler : Handler)
    (s : Stack) (g : guid) (c : GattCharacteristic) :
  BytesToGuid byte_order characteristicId = Returns g ->
  find_characteristic self g = Some c ->
  (WriteDescriptor_get radio (calls s) c = Success ->
   Subscribe byte_order radio self characteristicId (Some handler) s
   = (Returns tt,
      {| calls := calls s
                  ++ [WriteClientCharacteristicConfigurationDescriptorAsync c Notify;
                      ValueChanged c handler];
         value_changed := value_changed s ++ [(c, handler)] |}))
  /\ (WriteDescriptor_get radio (calls s) c <> Success ->
      Subscribe byte_order radio self characteristicId (Some handler) s
      = (Throws std_exception,
         {| calls := calls s
                     ++ [WriteClientCharacteristicConfigurationDescriptorAsync
                           c Notify];
            value_changed := value_changed s |})).
Proof.
  intros Hg Hc. unfold Subscribe, bind, lift. rewrite Hg, Hc.
  unfold WriteDescriptor. split; intros Hst.
  - rewrite Hst. simpl. rewrite <- app_assoc. reflexivity.
  - apply is_Success_false in Hst. rewrite Hst. reflexivity.
Qed.

Lemma Subscribe_descriptor_first_witness :
  Subscribe BigEndian Sample.good_radio Sample.session
    (EncodeUuid BigEndian Sample.uuid_notify) (Some 7%nat) Sample.idle
  = (Returns tt,
     {| calls := [WriteClientCharacteristicConfigurationDescriptorAsync
                    Sample.c_notify Notify;
                  ValueChanged Sample.c_notify 7%nat];
        value_changed := [(Sample.c_notify, 7%nat)] |})
  /\ Subscribe BigEndian Sample.lost_radio Sample.session
       (EncodeUuid BigEndian Sample.uuid_notify) (Some 7%nat) Sample.idle
     = (Throws std_exception,
        {| calls := [WriteClientCharacteristicConfigurationDescriptorAsync
                       Sample.c_notify Notify];
           value_changed := [] |}).
Proof.
  split.
  - refine (proj1 (Subscribe_descriptor_first BigEndian Sample.good_radio
                     Sample.session (EncodeUuid BigEndian Sample.uuid_notify)
                     7%nat Sample.idle Sample.uuid_notify
                     Sample.c_notify eq_refl eq_refl) eq_refl).
  - refine (proj2 (Subscribe_descriptor_first BigEndian Sample.lost_radio
                     Sample.session (EncodeUuid BigEndian Sample.uuid_notify)
                     7%nat Sample.idle Sample.uuid_notify
                     Sample.c_notify eq_refl eq_refl) _).
    discriminate.
Defined.

(** An absent handler makes [Subscribe] return at once. *)
Lemma Subscribe_no_handler (byte_order : ByteOrder) (radio : Radio)
    (self : WinBleDevice) (characteristicId : list byte) (s : Stack) :
  Subscribe byte_order radio self characteristicId None s = (Returns tt, s).
Proof. reflexivity. Qed.

(** C3 (as amended): every [Subscribe] that returns with a handler has
    added exactly that one handler to the ValueChanged event of the
    characteristic found, behind the handlers registered before, which all
    stay registered; a second [Subscribe] for the same UUID therefore leaves
    two handlers on the characteristic. *)
Theorem Subscribe_adds_handler (byte_order : ByteOrder) (radio : Radio)
    (self : WinBleDevice) (characteristicId : list byte) (handler : Handler)
    (s s' : Stack) :
  Subscribe byte_order radio self characteristicId (Some handler) s
  = (Returns tt, s') ->
  exists g c,
    BytesToGuid byte_order characteristicId = Returns g
    /\ find_characteristic self g = Some c
    /\ value_changed s' = value_changed s ++ [(c, handler)]
    /\ handlers_of s' c = handlers_of s c ++ [handler]
    /\ List.length (handlers_of s' c) = S (List.length (handlers_of s c)).
Proof.
  unfold Subscribe, bind, lift.
  destruct (BytesToGuid byte_order characteristicId) as [g| |]; try discriminate.
  destruct (find_characteristic self g) as [c|] eqn:Hc; [|discriminate].
  unfold WriteDescriptor.
  destruct (is_Success (WriteDescriptor_get radio (calls s) c)); [|discriminate].
  simpl. unfold ret. intros H. injection H as <-.
  exists g, c. split; [reflexivity|]. split; [exact Hc|].
  split; [reflexivity|].
  assert (E : handlers_of
                {| calls := (calls s
                     ++ [WriteClientCharacteristicConfigurationDescriptorAsync
                           c Notify]) ++ [ValueChanged c handler];
                   value_changed := value_changed s ++ [(c, handler)] |} c
              = handlers_of s c ++ [handler]).
  { unfold handlers_of. simpl. rewrite filter_app, map_app. simpl.
    rewrite characteristic_eqb_refl. reflexivity. }
  split; [exact E|]. rewrite E, length_app. simpl. lia.
Qed.

Lemma Subscribe_adds_handler_witness :
  exists g c,
    BytesToGuid BigEndian (EncodeUuid BigEndian Sample.uuid_notify) = Returns g
    /\ find_characteristic Sample.session g = Some c
    /\ handlers_of
         (snd (Subscribe BigEndian Sample.good_radio Sample.session
                 (EncodeUuid BigEndian Sample.uuid_notify) (Some 7%nat)
                 Sample.idle)) c
       = [7%nat].
Proof.
  destruct (Subscribe_adds_handler BigEndian Sample.good_radio Sample.session
              (EncodeUuid BigEndian Sample.uuid_notify) 7%nat Sample.idle
              (snd (Subscribe BigEndian Sample.good_radio Sample.session
                      (EncodeUuid BigEndian Sample.uuid_notify) (Some 7%nat)
                      Sample.idle))
              eq_refl)
    as (g & c & Hg & Hc & _ & Hh & _).
  exists g, c. split; [exact Hg|]. split; [exact Hc|]. exact Hh.
Defined.

(** C3 (as stated) fails: after two calls of [Subscribe] for the same
    characteristic UUID, with handlers 1 and 2, both handlers are registered
    on the characteristic; the second call did not replace the first. *)
Lemma Subscribe_twice_stacks :
  let id := EncodeUuid BigEndian Sample.uuid_notify in
  let r1 := Subscribe BigEndian Sample.good_radio Sample.session id
              (Some 1%nat) Sample.idle in
  let r2 := Subscribe BigEndian Sample.good_radio Sample.session id
              (Some 2%nat) (snd r1) in
  fst r1 = Returns tt
  /\ fst r2 = Returns tt
  /\ handlers_of (snd r2) Sample.c_notify = [1%nat; 2%nat]
  /\ notification (snd r2) Sample.c_notify [xaa]
     = [(1%nat, [xaa]); (2%nat, [xaa])].
Proof. repeat split. Qed.

(** ** Connecting *)

Lemma find_address_Some (table : list DeviceInformation) (address : string)
    (d : DeviceInformation) :
  find_address table address = Returns (Some d) ->
  In d table /\ GetDeviceAddress d = Returns address.
Proof.
  induction table as [|x rest IH]; simpl; [discriminate|].
  destruct (GetDeviceAddress x) as [a| |] eqn:E; try discriminate.
  destruct (String.eqb a address) eqn:Ea.
  - intros H. injection H as <-. apply String.eqb_eq in Ea. subst a. auto.
  - intros H. apply IH in H. tauto.
Qed.

Lemma find_address_None (table : list DeviceInformation) (address : string) :
  find_address table address = Returns None ->
  forall d, In d table -> GetDeviceAddress d <> Returns address.
Proof.
  induction table as [|x rest IH]; simpl; [intros _ d []|].
  destruct (GetDeviceAddress x) as [a| |] eqn:E; try discriminate.
  destruct (String.eqb a address) eqn:Ea; [discriminate|].
  intros H d [<-|Hd]; [|apply IH; assumption].
  rewrite E. intros Heq. injection Heq as ->.
  rewrite String.eqb_refl in Ea. discriminate.
Qed.

Lemma find_address_total (table : list DeviceInformation) (address : string) :
  (forall d, In d table -> exists a, GetDeviceAddress d = Returns a) ->
  exists r, find_address table address = Returns r.
Proof.
  induction table as [|x rest IH]; intros Hall; simpl; [eexists; reflexivity|].
  destruct (Hall x (or_introl eq_refl)) as [a ->].
  destruct (String.eqb a address); [eexists; reflexivity|].
  apply IH. intros d Hd. apply Hall. right. exact Hd.
Qed.

Lemma watcher_table_addresses (table : list DeviceInformation) :
  watcher_table table ->
  forall d, In d table -> exists a, GetDeviceAddress d = Returns a.
Proof.
  intros H d Hd. apply (H d Hd). left. reflexivity.
Qed.

Lemma make_session_stack (device : option BluetoothLEDevice) (s : Stack) :
  snd (make_session device s) = s.
Proof. destruct device; reflexivity. Qed.

(** C6: on a table of records as the watcher reports them, each carrying
    the requested properties, [Connect] takes exactly one of two paths.  Either some record has the
    given address, and the one request made is [FromIdAsync] with the id
    of such a record; or no record has it, and the one request made is
    [FromBluetoothAddressAsync] with the number parsed from the address
    text.  The session is built from the device that request returns. *)
Theorem Connect_selects_path (ULONG_MAX : Z) (radio : Radio)
    (self : WinBleAdapter) (address : string) (s : Stack) :
  watcher_table (m_nearbyDevices self) ->
  (exists d,
      In d (m_nearbyDevices self)
      /\ GetDeviceAddress d = Returns address
      /\ Connect ULONG_MAX radio self address s
         = make_session (FromIdAsync_get radio (calls s) (Id d))
                        (log (FromIdAsync (Id d)) s)
      /\ calls (snd (Connect ULONG_MAX radio self address s))
         = calls s ++ [FromIdAsync (Id d)])
  \/ ((forall d, In d (m_nearbyDevices self) ->
                 GetDeviceAddress d <> Returns address)
      /\ Connect ULONG_MAX radio self address s
         = make_session
             (FromBluetoothAddressAsync_get radio (calls s)
                (MacAddressStringToUint ULONG_MAX address))
             (log (FromBluetoothAddressAsync
                     (MacAddressStringToUint ULONG_MAX address)) s)
      /\ calls (snd (Connect ULONG_MAX radio self address s))
         = calls s ++ [FromBluetoothAddressAsync
                         (MacAddressStringToUint ULONG_MAX address)]).
Proof.
  intros Hall.
  destruct (find_address_total _ address (watcher_table_addresses _ Hall))
    as [[d|] Hr].
  - left. exists d. destruct (find_address_Some _ _ _ Hr) as [Hin Ha].
    assert (E : Connect ULONG_MAX radio self address s
                = make_session (FromIdAsync_get radio (calls s) (Id d))
                               (log (FromIdAsync (Id d)) s)).
    { unfold Connect, bind, lift. rewrite Hr. reflexivity. }
    repeat split; try assumption. rewrite E, make_session_stack. reflexivity.
  - right. split; [apply find_address_None; exact Hr|].
    assert (E : Connect ULONG_MAX radio self address s
                = make_session
                    (FromBluetoothAddressAsync_get radio (calls s)
                       (MacAddressStringToUint ULONG_MAX address))
                    (log (FromBluetoothAddressAsync
                            (MacAddressStringToUint ULONG_MAX address)) s)).
    { unfold Connect, bind, lift. rewrite Hr. reflexivity. }
    split; [exact E|]. rewrite E, make_session_stack. reflexivity.
Qed.

Lemma Connect_selects_path_witness :
  calls (snd (Connect ULONG_MAX_LLP64 Sample.good_radio
                (Sample.adapter_with Started [Sample.sphero])
                "aa:bb:cc:dd:ee:ff" Sample.idle))
  = [FromIdAsync "BluetoothLE#dev-1"]
  /\ calls (snd (Connect ULONG_MAX_LLP64 Sample.good_radio
                   (Sample.adapter_with Started [Sample.sphero])
                   "00:00:12:34:56:78" Sample.idle))
     = [FromBluetoothAddressAsync 305419896].
Proof.
  assert (Hall : watcher_table
                   (m_nearbyDevices (Sample.adapter_with Started [Sample.sphero]))).
  { intros d [<-|[]] key [<-|[<-|[<-|[]]]]; eexists; reflexivity. }
  split.
  - destruct (Connect_selects_path ULONG_MAX_LLP64 Sample.good_radio
                (Sample.adapter_with Started [Sample.sphero])
                "aa:bb:cc:dd:ee:ff" Sample.idle Hall)
      as [(d & Hin & _ & _ & Hc) | (Hno & _)].
    + destruct Hin as [<-|[]]. exact Hc.
    + exfalso. apply (Hno Sample.sphero); [left|]; reflexivity.
  - destruct (Connect_selects_path ULONG_MAX_LLP64 Sample.good_radio
                (Sample.adapter_with Started [Sample.sphero])
                "00:00:12:34:56:78" Sample.idle Hall)
      as [(d & Hin & Ha & _) | (_ & _ & Hc)].
    + destruct Hin as [<-|[]]. discriminate Ha.
    + exact Hc.
Defined.

(** A record without the address property stops the search of [Connect]
    with the exception of [Lookup]; no connect request is made. *)
Example Connect_without_address_property :
  Connect ULONG_MAX_LLP64 Sample.good_radio
    (Sample.adapter_with Started [Sample.nameless; Sample.sphero])
    "aa:bb:cc:dd:ee:ff" Sample.idle
  = (Throws (hresult_error "E_BOUNDS"), Sample.idle).
Proof. reflexivity. Qed.

(** *** The table invariant under the watcher's events *)

Lemma Lookup_app (a b : list (string * string)) (key : string) :
  Lookup (a ++ b) key
  = match Lookup a key with
    | Returns v => Returns v
    | _ => Lookup b key
    end.
Proof.
  induction a as [|[k v] a IH]; simpl; [reflexivity|].
  destruct (String.eqb k key); [reflexivity|exact IH].
Qed.

Lemma carries_requested_Update (d : DeviceInformation)
    (u : DeviceInformationUpdate) :
  carries_requested d -> carries_requested (Update d u).
Proof.
  intros H key Hkey. destruct (H key Hkey) as [v Hv].
  unfold Update. simpl. rewrite Lookup_app.
  destruct (Lookup (UpdateProperties u) key); eexists; try reflexivity;
    exact Hv.
Qed.

Lemma In_firstn {A} (n : nat) (l : list A) (x : A) :
  In x (firstn n l) -> In x l.
Proof.
  intros H. rewrite <- (firstn_skipn n l). apply in_or_app. left. exact H.
Qed.

Lemma In_skipn {A} (n : nat) (l : list A) (x : A) :
  In x (skipn n l) -> In x l.
Proof.
  intros H. rewrite <- (firstn_skipn n l). apply in_or_app. right. exact H.
Qed.

(** The three handlers that touch the table keep it a table of records
    carrying the requested properties, as long as the watcher reports such
    records. *)
Lemma watcher_table_on_Added (deviceInfo : DeviceInformation)
    (self : WinBleAdapter) :
  carries_requested deviceInfo ->
  watcher_table (m_nearbyDevices self) ->
  watcher_table (m_nearbyDevices (snd (on_Added deviceInfo self))).
Proof.
  intros Hd Ht. unfold on_Added.
  destruct (existsb _ _); simpl; [exact Ht|].
  intros x Hx. apply in_app_or in Hx. destruct Hx as [Hx|[<-|[]]];
    [apply Ht; exact Hx | exact Hd].
Qed.

Lemma watcher_table_on_Updated (u : DeviceInformationUpdate)
    (self : WinBleAdapter) :
  watcher_table (m_nearbyDevices self) ->
  watcher_table (m_nearbyDevices (snd (on_Updated u self))).
Proof.
  intros Ht. unfold on_Updated.
  destruct (negb _); [|exact Ht].
  destruct (nth_error _ _) as [d|] eqn:E; [|exact Ht].
  cbn [snd set_nearbyDevices m_nearbyDevices].
  intros x Hx. apply in_app_or in Hx. destruct Hx as [Hx|[<-|Hx]].
  - apply Ht. exact (In_firstn _ _ _ Hx).
  - apply carries_requested_Update. apply Ht. exact (nth_error_In _ _ E).
  - apply Ht. exact (In_skipn _ _ _ Hx).
Qed.

Lemma watcher_table_on_Removed (u : DeviceInformationUpdate)
    (self : WinBleAdapter) :
  watcher_table (m_nearbyDevices self) ->
  watcher_table (m_nearbyDevices (snd (on_Removed u self))).
Proof.
  intros Ht. unfold on_Removed, erase.
  destruct (_ <? _)%nat; [|exact Ht].
  cbn [snd set_nearbyDevices m_nearbyDevices].
  intros x Hx. apply in_app_or in Hx. destruct Hx as [Hx|Hx]; apply Ht.
  - exact (In_firstn _ _ _ Hx).
  - exact (In_skipn _ _ _ Hx).
Qed.

(** ** Starting the watcher *)

Lemma Start_sets_Started (self self' : WinBleAdapter) :
  Start self = (Returns tt, self') -> Status (m_deviceWatcher self') = Started.
Proof.
  unfold Start.
  destruct (is_Started (Status (m_deviceWatcher self))) eqn:E.
  - intros H. injection H as <-. destruct (Status (m_deviceWatcher self));
      try discriminate E. reflexivity.
  - unfold bind, register, DeviceWatcher_Start. simpl.
    destruct (Status (m_deviceWatcher self)); intros H;
      try discriminate H; injection H as <-; reflexivity.
Qed.

(** C8: while the watcher is in the Started state, [Start] returns at once
    and leaves the adapter exactly as it was: no handler is registered, the
    watcher is not started again and no member changes.  In particular a
    [Start] that follows a [Start] which returned is such a no-op. *)
Theorem Start_idempotent (self : WinBleAdapter) :
  (Status (m_deviceWatcher self) = Started -> Start self = (Returns tt, self))
  /\ (forall self', Start self = (Returns tt, self') ->
                    Start self' = (Returns tt, self')).
Proof.
  assert (H : forall a, Status (m_deviceWatcher a) = Started ->
                        Start a = (Returns tt, a)).
  { intros a Ha. unfold Start. rewrite Ha. reflexivity. }
  split; [apply H|]. intros self' Hs. apply H.
  exact (Start_sets_Started _ _ Hs).
Qed.

Lemma Start_idempotent_witness :
  Start (Sample.adapter_with Started [Sample.sphero])
  = (Returns tt, Sample.adapter_with Started [Sample.sphero])
  /\ Start (snd (Start WinBleAdapter_new)) = (Returns tt, snd (Start WinBleAdapter_new)).
Proof.
  split.
  - apply (proj1 (Start_idempotent (Sample.adapter_with Started [Sample.sphero]))).
    reflexivity.
  - apply (proj2 (Start_idempotent WinBleAdapter_new)). reflexivity.
Defined.

(** The first [Start] of a fresh adapter registers the four handlers and
    starts the watcher. *)
Example Start_fresh :
  Start WinBleAdapter_new
  = (Returns tt, Sample.adapter_with Started []).
Proof. reflexivity. Qed.

(** ** The Removed handler *)

Lemma find_if_le {A} (p : A -> bool) (l : list A) :
  (find_if p l <= List.length l)%nat.
Proof.
  induction l as [|x rest IH]; simpl; [lia|]. destruct (p x); lia.
Qed.

Lemma find_if_end {A} (p : A -> bool) (l : list A) :
  find_if p l = List.length l <-> forall x, In x l -> p x = false.
Proof.
  induction l as [|x rest IH]; simpl.
  - split; [intros _ x []|reflexivity].
  - destruct (p x) eqn:E.
    + split; [discriminate|]. intros H. rewrite (H x (or_introl eq_refl)) in E.
      discriminate.
    + split.
      * intros H y [<-|Hy]; [exact E|]. apply IH; [lia|exact Hy].
      * intros H. f_equal. apply IH. intros y Hy. apply H. right. exact Hy.
Qed.

(** Without an entry of the id removed, the handler erases [end()]. *)
Lemma on_Removed_absent (u : DeviceInformationUpdate) (self : WinBleAdapter) :
  (forall d, In d (m_nearbyDevices self) -> Id d <> UpdateId u) ->
  on_Removed u self = (Undefined, self).
Proof.
  intros H. unfold on_Removed, erase.
  replace (find_if (same_id u) (m_nearbyDevices self))
    with (List.length (m_nearbyDevices self)).
  - rewrite Nat.ltb_irrefl. reflexivity.
  - symmetry. apply find_if_end. intros d Hd. unfold same_id.
    apply String.eqb_neq. apply H. exact Hd.
Qed.

(** With an entry of the id removed, the handler erases the first one. *)
Lemma on_Removed_present (u : DeviceInformationUpdate) (self : WinBleAdapter)
    (d : DeviceInformation) :
  In d (m_nearbyDevices self) -> Id d = UpdateId u ->
  let pos := find_if (same_id u) (m_nearbyDevices self) in
  (pos < List.length (m_nearbyDevices self))%nat
  /\ on_Removed u self
     = (Returns tt,
        set_nearbyDevices (firstn pos (m_nearbyDevices self)
                           ++ skipn (S pos) (m_nearbyDevices self)) self).
Proof.
  intros Hin Hid pos.
  assert (Hlt : (pos < List.length (m_nearbyDevices self))%nat).
  { pose proof (find_if_le (same_id u) (m_nearbyDevices self)) as Hle.
    destruct (Nat.eq_dec pos (List.length (m_nearbyDevices self))) as [E|E];
      [|subst pos; lia].
    apply find_if_end with (x := d) in E; [|exact Hin].
    unfold same_id in E. apply String.eqb_neq in E. contradiction. }
  split; [exact Hlt|]. unfold on_Removed, erase. fold pos.
  apply Nat.ltb_lt in Hlt. rewrite Hlt. reflexivity.
Qed.

(** C10 on the code: a Removed event whose id matches no entry of the table
    makes the handler erase the [end()] position, which is undefined
    behaviour, where the Updated handler, given the same update, tests the
    position against [cend()] and returns with the table unchanged. *)
Theorem on_Removed_unknown_id_erases_end :
  let self := Sample.adapter_with EnumerationCompleted [Sample.sphero] in
  find_if (same_id Sample.removed_other) (m_nearbyDevices self)
  = List.length (m_nearbyDevices self)
  /\ on_Removed Sample.removed_other self = (Undefined, self)
  /\ on_Updated Sample.removed_other self = (Returns tt, self).
Proof. repeat split. Qed.

(** * Further properties of the code *)

(** ** Address parsing: range, saturation, trailing text *)

Lemma hex_digit_range (c : ascii) (d : Z) :
  CRuntime.hex_digit c = Some d -> 0 <= d < 16.
Proof.
  unfold CRuntime.hex_digit. set (n := Z.of_nat (nat_of_ascii c)).
  destruct ((48 <=? n) && (n <=? 57)) eqn:E1.
  { apply andb_true_iff in E1. destruct E1 as [A B].
    apply Z.leb_le in A. apply Z.leb_le in B. intros H. injection H as <-. lia. }
  destruct ((97 <=? n) && (n <=? 102)) eqn:E2.
  { apply andb_true_iff in E2. destruct E2 as [A B].
    apply Z.leb_le in A. apply Z.leb_le in B. intros H. injection H as <-. lia. }
  destruct ((65 <=? n) && (n <=? 70)) eqn:E3; [|discriminate].
  apply andb_true_iff in E3. destruct E3 as [A B].
  apply Z.leb_le in A. apply Z.leb_le in B. intros H. injection H as <-. lia.
Qed.

Lemma hex_run_range (s : string) :
  Forall (fun d => 0 <= d < 16) (CRuntime.hex_run s).
Proof.
  induction s as [|a rest IH]; simpl; [constructor|].
  destruct (CRuntime.hex_digit a) as [d|] eqn:E; constructor.
  - exact (hex_digit_range a d E).
  - exact IH.
Qed.

Lemma fold_hex_nonneg (ds : list Z) :
  Forall (fun d => 0 <= d < 16) ds ->
  forall acc, 0 <= acc -> 0 <= fold_left (fun a d => a * 16 + d) ds acc.
Proof.
  induction 1 as [|d ds Hd _ IH]; intros acc Hacc; simpl; [exact Hacc|].
  apply IH. lia.
Qed.

Lemma hex_value_nonneg (s : string) :
  0 <= CRuntime.hex_value (CRuntime.hex_run s).
Proof.
  unfold CRuntime.hex_value. apply fold_hex_nonneg; [apply hex_run_range|lia].
Qed.

(** X1: whatever the text, the parse returns a number of [unsigned long]:
    it never fails and never exceeds [ULONG_MAX]. *)
Theorem MacAddressStringToUint_range (ULONG_MAX : Z) (macAddress : string) :
  0 <= ULONG_MAX ->
  0 <= MacAddressStringToUint ULONG_MAX macAddress <= ULONG_MAX.
Proof.
  intros Hum. unfold MacAddressStringToUint, CRuntime.strtoul16.
  destruct (CRuntime.take_sign _) as [neg body].
  pose proof (hex_value_nonneg (CRuntime.skip_0x body)) as Hv.
  destruct (ULONG_MAX <? _) eqn:E; [lia|]. apply Z.ltb_ge in E.
  destruct neg; [|lia].
  pose proof (Z.mod_pos_bound
                (ULONG_MAX + 1 - CRuntime.hex_value
                                   (CRuntime.hex_run (CRuntime.skip_0x body)))
                (ULONG_MAX + 1) ltac:(lia)).
  lia.
Qed.

Lemma MacAddressStringToUint_range_witness :
  0 <= MacAddressStringToUint ULONG_MAX_LLP64 "-AA:BB" <= ULONG_MAX_LLP64.
Proof.
  apply (MacAddressStringToUint_range ULONG_MAX_LLP64 "-AA:BB").
  unfold ULONG_MAX_LLP64. lia.
Defined.

(** X2: an address text of hexadecimal digits and colons whose value is
    above [ULONG_MAX] parses to [ULONG_MAX]; all such addresses are parsed to
    the same number. *)
Theorem MacAddressStringToUint_saturates (ULONG_MAX : Z) (macAddress : string) :
  all_hex (CRuntime.erase_remove ":" macAddress) = true ->
  ULONG_MAX
  < CRuntime.hex_value (CRuntime.hex_run (CRuntime.erase_remove ":" macAddress)) ->
  MacAddressStringToUint ULONG_MAX macAddress = ULONG_MAX.
Proof.
  intros Hhex Hbig. unfold MacAddressStringToUint, CRuntime.strtoul16.
  destruct (all_hex_subject _ Hhex) as [-> ->].
  apply Z.ltb_lt in Hbig. rewrite Hbig. reflexivity.
Qed.

Lemma MacAddressStringToUint_saturates_witness :
  MacAddressStringToUint ULONG_MAX_LLP64 "AA:BB:CC:DD:EE:FF" = ULONG_MAX_LLP64
  /\ MacAddressStringToUint ULONG_MAX_LLP64 "11:22:33:44:55:66" = ULONG_MAX_LLP64.
Proof.
  split.
  - apply (MacAddressStringToUint_saturates ULONG_MAX_LLP64 "AA:BB:CC:DD:EE:FF");
      [reflexivity | vm_compute; reflexivity].
  - apply (MacAddressStringToUint_saturates ULONG_MAX_LLP64 "11:22:33:44:55:66");
      [reflexivity | vm_compute; reflexivity].
Defined.

Lemma erase_remove_app (c : ascii) (s1 s2 : string) :
  CRuntime.erase_remove c (s1 ++ s2)
  = (CRuntime.erase_remove c s1 ++ CRuntime.erase_remove c s2)%string.
Proof.
  induction s1 as [|a rest IH]; simpl; [reflexivity|].
  destruct (Ascii.eqb a c); simpl; rewrite IH; reflexivity.
Qed.

Lemma hex_run_stop (t : string) (g : ascii) (r : string) :
  all_hex t = true -> CRuntime.is_hex_digit g = false ->
  CRuntime.hex_run (t ++ String g r) = CRuntime.hex_run t.
Proof.
  unfold CRuntime.is_hex_digit. intros Ht Hg.
  induction t as [|a rest IH]; simpl.
  - destruct (CRuntime.hex_digit g); [discriminate|reflexivity].
  - simpl in Ht. apply andb_true_iff in Ht. destruct Ht as [_ Hrest].
    destruct (CRuntime.hex_digit a); [|reflexivity]. rewrite (IH Hrest).
    reflexivity.
Qed.

(** In front of a character that is no digit and no x, a non-empty run of
    hexadecimal digits is where strtoul starts converting. *)
Lemma garbage_subject (a : ascii) (t : string) (g : ascii) (r : string) :
  all_hex (String a t) = true ->
  (Ascii.eqb g "x" || Ascii.eqb g "X") = false ->
  CRuntime.take_sign (CRuntime.skip_spaces (String a t ++ String g r))
  = (false, (String a t ++ String g r)%string)
  /\ CRuntime.skip_0x (String a t ++ String g r) = (String a t ++ String g r)%string.
Proof.
  simpl all_hex. intros H Hg. apply andb_true_iff in H. destruct H as [Ha Ht].
  split.
  - simpl. rewrite (hex_not_space a Ha). apply hex_not_sign. exact Ha.
  - destruct t as [|b t'].
    + simpl. destruct r as [|d r'];
        [destruct a as [[] [] [] [] [] [] [] []]; reflexivity|].
      rewrite Hg. simpl. destruct a as [[] [] [] [] [] [] [] []]; reflexivity.
    + simpl in Ht. apply andb_true_iff in Ht. destruct Ht as [Hb _].
      simpl. destruct (t' ++ String g r)%string as [|d r'];
        [destruct a as [[] [] [] [] [] [] [] []]; reflexivity|].
      rewrite (hex_not_x b Hb). simpl.
      destruct a as [[] [] [] [] [] [] [] []]; reflexivity.
Qed.

(** X3: the parse stops at the first character that is neither a colon nor
    a hexadecimal digit and silently ignores it and everything behind it:
    digits, then such a character (other than x), then any text, parse to
    the same number as the digits alone, which is their value capped at
    [ULONG_MAX]. *)
Theorem MacAddressStringToUint_ignores_tail (ULONG_MAX : Z)
    (head : string) (g : ascii) (tail : string) :
  CRuntime.erase_remove ":" head <> ""%string ->
  all_hex (CRuntime.erase_remove ":" head) = true ->
  CRuntime.is_hex_digit g = false ->
  g <> ":"%char -> g <> "x"%char -> g <> "X"%char ->
  MacAddressStringToUint ULONG_MAX (head ++ String g tail)
  = MacAddressStringToUint ULONG_MAX head
  /\ MacAddressStringToUint ULONG_MAX (head ++ String g tail)
     = Z.min (CRuntime.hex_value
                (CRuntime.hex_run (CRuntime.erase_remove ":" head)))
             ULONG_MAX.
Proof.
  intros Hne Hhex Hg Hcolon Hx HX.
  assert (Hhead : MacAddressStringToUint ULONG_MAX head
                  = Z.min (CRuntime.hex_value
                             (CRuntime.hex_run (CRuntime.erase_remove ":" head)))
                          ULONG_MAX).
  { unfold MacAddressStringToUint, CRuntime.strtoul16.
    destruct (all_hex_subject _ Hhex) as [-> ->].
    destruct (ULONG_MAX <? _) eqn:E;
      [apply Z.ltb_lt in E | apply Z.ltb_ge in E]; lia. }
  assert (Htail : MacAddressStringToUint ULONG_MAX (head ++ String g tail)
                  = Z.min (CRuntime.hex_value
                             (CRuntime.hex_run (CRuntime.erase_remove ":" head)))
                          ULONG_MAX).
  { unfold MacAddressStringToUint. rewrite erase_remove_app.
    simpl (CRuntime.erase_remove ":" (String g tail)).
    apply Ascii.eqb_neq in Hcolon. rewrite Hcolon.
    set (t := CRuntime.erase_remove ":" head) in *.
    set (r := CRuntime.erase_remove ":" tail).
    destruct t as [|a t'] eqn:Et; [contradiction|].
    assert (Hgx : (Ascii.eqb g "x" || Ascii.eqb g "X") = false).
    { apply Ascii.eqb_neq in Hx. apply Ascii.eqb_neq in HX. rewrite Hx, HX.
      reflexivity. }
    destruct (garbage_subject a t' g r Hhex Hgx) as [Hs H0].
    unfold CRuntime.strtoul16. rewrite Hs, H0, (hex_run_stop _ g r Hhex Hg).
    destruct (ULONG_MAX <? _) eqn:E;
      [apply Z.ltb_lt in E | apply Z.ltb_ge in E]; lia. }
  split; [congruence|exact Htail].
Qed.

Lemma MacAddressStringToUint_ignores_tail_witness :
  MacAddressStringToUint ULONG_MAX_LLP64 "AA:BBzz:12" = 43707
  /\ MacAddressStringToUint ULONG_MAX_LLP64 "AA:BB:CC:DD:EE:FFzz"
     = MacAddressStringToUint ULONG_MAX_LLP64 "AA:BB:CC:DD:EE:FF".
Proof.
  split.
  - refine (proj2 (MacAddressStringToUint_ignores_tail ULONG_MAX_LLP64
                     "AA:BB" "z" "z:12" _ eq_refl eq_refl _ _ _));
      discriminate.
  - refine (proj1 (MacAddressStringToUint_ignores_tail ULONG_MAX_LLP64
                     "AA:BB:CC:DD:EE:FF" "z" "z" _ eq_refl eq_refl _ _ _));
      discriminate.
Defined.

(** ** Characteristic ids: short, long and distinct ids *)



Lemma BytesToGuid_prefix (byte_order : ByteOrder) (id extra : list byte) :
  List.length id = 16%nat ->
  BytesToGuid byte_order (id ++ extra) = BytesToGuid byte_order id.
Proof.
  intros Hlen.
  do 17 (destruct id as [|? id]; try discriminate Hlen).
  reflexivity.
Qed.

(** X5: only the first sixteen bytes of a characteristic id count: bytes
    appended to an id change neither the GUID decoded nor what
    [WriteToCharacteristic] and [Subscribe] do. *)
Theorem long_id_is_truncated (byte_order : ByteOrder) (radio : Radio)
    (self : WinBleDevice) (characteristicId extra data : list byte)
    (eventHandler : option Handler) (s : Stack) :
  List.length characteristicId = 16%nat ->
  BytesToGuid byte_order (characteristicId ++ extra)
  = BytesToGuid byte_order characteristicId
  /\ WriteToCharacteristic byte_order radio self (characteristicId ++ extra) data s
     = WriteToCharacteristic byte_order radio self characteristicId data s
  /\ Subscribe byte_order radio self (characteristicId ++ extra) eventHandler s
     = Subscribe byte_order radio self characteristicId eventHandler s.
Proof.
  intros Hlen. pose proof (BytesToGuid_prefix byte_order _ extra Hlen) as E.
  split; [exact E|].
  unfold WriteToCharacteristic, Subscribe. rewrite E. split; reflexivity.
Qed.

Lemma long_id_is_truncated_witness :
  WriteToCharacteristic BigEndian Sample.good_radio Sample.session
    (Fixture.id_write ++ [xff; xff]) [x01] Sample.idle
  = WriteToCharacteristic BigEndian Sample.good_radio Sample.session
      Fixture.id_write [x01] Sample.idle.
Proof.
  exact (proj1 (proj2 (long_id_is_truncated BigEndian Sample.good_radio
                         Sample.session Fixture.id_write [xff; xff] [x01]
                         None Sample.idle eq_refl))).
Defined.

(** X6: the decoder tells sixteen-byte ids apart: two ids of sixteen bytes
    that decode to the same GUID are the same bytes. *)
Theorem BytesToGuid_injective (byte_order : ByteOrder) (id1 id2 : list byte) :
  List.length id1 = 16%nat -> List.length id2 = 16%nat ->
  BytesToGuid byte_order id1 = BytesToGuid byte_order id2 ->
  id1 = id2.
Proof.
  intros H1 H2 Heq.
  destruct (WriteGuid_ReadGuid byte_order id1 H1) as (g1 & R1 & _ & W1).
  destruct (WriteGuid_ReadGuid byte_order id2 H2) as (g2 & R2 & _ & W2).
  unfold BytesToGuid in Heq. rewrite R1, R2 in Heq.
  injection Heq as E1 E2 E3 E4.
  assert (E4' : Data4 g1 = Data4 g2).
  { rewrite <- (rev_involutive (Data4 g1)), E4. apply rev_involutive. }
  rewrite <- W1, <- W2. destruct g1, g2; simpl in *. congruence.
Qed.

Lemma BytesToGuid_injective_witness :
  Fixture.id_notify
  = [x22; xc9; x58; xc5; xc8; x52; x9e; x30;
     x08; x07; x06; x05; x04; x03; x02; x01].
Proof.
  apply (BytesToGuid_injective BigEndian); reflexivity.
Defined.

(** ** The cache of a session and the target of a write *)

(** X7: in a session that the constructor returned, a UUID is found in the
    cache exactly when some service of the device reported a characteristic
    with that UUID, and what is found is such a characteristic. *)
Theorem session_finds_what_was_discovered (device : BluetoothLEDevice)
    (self : WinBleDevice) (g : guid) :
  WinBleDevice_new device = Returns self ->
  ((exists c, find_characteristic self g = Some c) <->
   (exists service c,
       In service (Services (GetGattServicesAsync device))
       /\ In c (Characteristics (GetCharacteristicsAsync service))
       /\ Uuid c = g))
  /\ (forall c, find_characteristic self g = Some c ->
        Uuid c = g
        /\ exists service,
             In service (Services (GetGattServicesAsync device))
             /\ In c (Characteristics (GetCharacteristicsAsync service))).
Proof.
  intros Hnew. apply WinBleDevice_new_Returns in Hnew.
  destruct Hnew as (_ & _ & Hcache).
  assert (Hin : forall c, In c (m_characteristics self) <->
                  exists service,
                    In service (Services (GetGattServicesAsync device))
                    /\ In c (Characteristics (GetCharacteristicsAsync service))).
  { intros c. rewrite Hcache. unfold all_characteristics. apply in_flat_map. }
  split; [split|].
  - intros [c Hc]. apply find_characteristic_Some in Hc. destruct Hc as [Hc Hu].
    apply Hin in Hc. destruct Hc as (service & Hs & Hc). eauto.
  - intros (service & c & Hs & Hc & Hu).
    destruct (find_characteristic self g) as [c'|] eqn:E; [eauto|].
    exfalso. apply (proj1 (find_characteristic_None self g) E c); [|exact Hu].
    apply Hin. eauto.
  - intros c Hc. apply find_characteristic_Some in Hc. destruct Hc as [Hc Hu].
    split; [exact Hu|]. apply Hin. exact Hc.
Qed.

Lemma session_finds_what_was_discovered_witness :
  (exists c, find_characteristic Sample.session Sample.uuid_write = Some c)
  <-> (exists service c,
          In service (Services (GetGattServicesAsync Sample.peripheral))
          /\ In c (Characteristics (GetCharacteristicsAsync service))
          /\ Uuid c = Sample.uuid_write).
Proof.
  exact (proj1 (session_finds_what_was_discovered Sample.peripheral
                  Sample.session Sample.uuid_write eq_refl)).
Defined.

Lemma find_characteristic_first (self : WinBleDevice) (g : guid)
    (before after : list GattCharacteristic) (c : GattCharacteristic) :
  m_characteristics self = before ++ c :: after ->
  (forall x, In x before -> Uuid x <> g) ->
  Uuid c = g ->
  find_characteristic self g = Some c.
Proof.
  unfold find_characteristic. intros -> Hbefore Hc.
  induction before as [|x rest IH]; simpl.
  - replace (guid_eqb g (Uuid c)) with true; [reflexivity|].
    symmetry. apply guid_eqb_eq. congruence.
  - destruct (guid_eqb g (Uuid x)) eqn:E.
    + apply guid_eqb_eq in E. exfalso.
      apply (Hbefore x (or_introl eq_refl)). congruence.
    + apply IH. intros y Hy. apply Hbefore. right. exact Hy.
Qed.

(** X8: when several cached characteristics carry the same UUID, the first
    of them in cache order is the one a write goes to and the one a handler
    is registered on; the later ones are never reached. *)
Theorem first_characteristic_shadows_later (byte_order : ByteOrder)
    (radio : Radio) (self : WinBleDevice) (characteristicId data : list byte)
    (handler : Handler) (s : Stack) (g : guid)
    (before after : list GattCharacteristic) (c : GattCharacteristic) :
  BytesToGuid byte_order characteristicId = Returns g ->
  m_characteristics self = before ++ c :: after ->
  (forall x, In x before -> Uuid x <> g) ->
  Uuid c = g ->
  calls (snd (WriteToCharacteristic byte_order radio self characteristicId data s))
  = calls s ++ [WriteValueAsync c data]
  /\ (WriteDescriptor_get radio (calls s) c = Success ->
      value_changed
        (snd (Subscribe byte_order radio self characteristicId (Some handler) s))
      = value_changed s ++ [(c, handler)]).
Proof.
  intros Hg Hcache Hbefore Hc.
  pose proof (find_characteristic_first self g before after c Hcache Hbefore Hc)
    as Hfind.
  unfold WriteToCharacteristic, Subscribe, bind, lift. rewrite Hg, Hfind.
  unfold WriteValue, WriteDescriptor. split.
  - destruct (is_Success _); reflexivity.
  - intros ->. reflexivity.
Qed.

Lemma first_characteristic_shadows_later_witness :
  calls (snd (WriteToCharacteristic BigEndian Sample.good_radio
                Fixture.twin_session Fixture.id_notify [x01] Sample.idle))
  = [WriteValueAsync Sample.c_notify [x01]].
Proof.
  refine (proj1 (first_characteristic_shadows_later BigEndian Sample.good_radio
                   Fixture.twin_session Fixture.id_notify [x01] 0%nat
                   Sample.idle Sample.uuid_notify []
                   [Sample.c_write; Fixture.c_shadowed] Sample.c_notify
                   eq_refl eq_refl _ eq_refl)).
  intros x [].
Defined.

(** ** Writing: when it returns and what it leaves alone *)

(** X9: [WriteToCharacteristic] returns normally exactly when the id
    decodes, a cached characteristic has the decoded UUID, and the stack
    answers the write to that characteristic with Success; in every other
    case it throws. *)
Theorem WriteToCharacteristic_returns_iff (byte_order : ByteOrder)
    (radio : Radio) (self : WinBleDevice) (characteristicId data : list byte)
    (s : Stack) :
  (fst (WriteToCharacteristic byte_order radio self characteristicId data s)
   = Returns tt <->
   exists g c,
     BytesToGuid byte_order characteristicId = Returns g
     /\ find_characteristic self g = Some c
     /\ WriteValueAsync_get radio (calls s) c data = Success)
  /\ (fst (WriteToCharacteristic byte_order radio self characteristicId data s)
      <> Returns tt ->
      exists e,
        fst (WriteToCharacteristic byte_order radio self characteristicId data s)
        = Throws e).
Proof.
  unfold WriteToCharacteristic, bind, lift, BytesToGuid, ReadGuid.
  destruct (List.length characteristicId <? 16)%nat.
  { simpl. split; [split|]; [discriminate| |eauto].
    intros (g & c & H & _). discriminate H. }
  match goal with |- context [Returns ?x] =>
    match x with {| Data1 := _ |} => set (g0 := x) end end.
  destruct (find_characteristic self g0) as [c|] eqn:Hc.
  - unfold WriteValue.
    destruct (is_Success (WriteValueAsync_get radio (calls s) c data)) eqn:Hs;
      simpl.
    + split; [split; [intros _|reflexivity]|intros H; contradiction].
      exists g0, c. apply is_Success_true in Hs. auto.
    + split; [split; [discriminate|]|eauto].
      intros (g & c' & Hg & Hc' & Hst). injection Hg as <-.
      rewrite Hc in Hc'. injection Hc' as <-.
      apply is_Success_true in Hst. congruence.
  - simpl. split; [split; [discriminate|]|eauto].
    intros (g & c' & Hg & Hc' & _). injection Hg as <-. congruence.
Qed.

(** X10: whatever its outcome, [WriteToCharacteristic] leaves every
    registered handler in place and makes at most one request, which is a
    write of exactly the given bytes to a characteristic of the cache. *)
Theorem WriteToCharacteristic_frame (byte_order : ByteOrder) (radio : Radio)
    (self : WinBleDevice) (characteristicId data : list byte) (s : Stack) :
  let s' := snd (WriteToCharacteristic byte_order radio self characteristicId
                   data s) in
  value_changed s' = value_changed s
  /\ (forall c value, notification s' c value = notification s c value)
  /\ (calls s' = calls s
      \/ exists c, In c (m_characteristics self)
                   /\ calls s' = calls s ++ [WriteValueAsync c data]).
Proof.
  unfold WriteToCharacteristic, bind, lift.
  destruct (BytesToGuid byte_order characteristicId) as [g| |];
    try (simpl; auto).
  destruct (find_characteristic self g) as [c|] eqn:Hc; [|simpl; auto].
  unfold WriteValue.
  destruct (is_Success (WriteValueAsync_get radio (calls s) c data)); simpl;
    (split; [reflexivity|]; split; [reflexivity|]; right; exists c;
     split; [exact (proj1 (find_characteristic_Some _ _ _ Hc))|reflexivity]).
Qed.

Lemma WriteToCharacteristic_returns_iff_witness :
  fst (WriteToCharacteristic BigEndian Sample.good_radio Sample.session
         Fixture.id_write [x01; x02] Sample.idle) = Returns tt.
Proof.
  apply (proj1 (WriteToCharacteristic_returns_iff BigEndian Sample.good_radio
                  Sample.session Fixture.id_write [x01; x02] Sample.idle)).
  exists Sample.uuid_write, Sample.c_write. repeat split.
Defined.

(** ** Subscribing: when nothing is requested, what is left alone, and
    what a notification then reaches *)

(** X11: [Subscribe] makes no request and changes nothing when the handler
    is absent, in which case it returns, and when no cached characteristic
    has the decoded UUID, in which case it throws the plain exception of the
    lookup: no descriptor is written and no handler is registered. *)
Theorem Subscribe_without_request (byte_order : ByteOrder) (radio : Radio)
    (self : WinBleDevice) (characteristicId : list byte) (s : Stack) :
  Subscribe byte_order radio self characteristicId None s = (Returns tt, s)
  /\ (forall handler g,
        BytesToGuid byte_order characteristicId = Returns g ->
        (forall c, In c (m_characteristics self) -> Uuid c <> g) ->
        Subscribe byte_order radio self characteristicId (Some handler) s
        = (Throws std_exception, s)).
Proof.
  split; [reflexivity|]. intros handler g Hg Hnone.
  unfold Subscribe, bind, lift. rewrite Hg.
  rewrite (proj2 (find_characteristic_None self g) Hnone). reflexivity.
Qed.

Lemma Subscribe_without_request_witness :
  Subscribe BigEndian Sample.good_radio Sample.session Fixture.id_unknown
    (Some 7%nat) Sample.idle
  = (Throws std_exception, Sample.idle).
Proof.
  refine (proj2 (Subscribe_without_request BigEndian Sample.good_radio
                   Sample.session Fixture.id_unknown Sample.idle)
            7%nat Sample.uuid_unknown eq_refl _).
  intros c [<-|[<-|[]]]; discriminate.
Defined.

(** X12: whatever its outcome, [Subscribe] removes no handler and adds at
    most one: either the registrations are what they were, or the call
    returned and the one new registration is the given handler on a
    characteristic of the cache.  A [Subscribe] that throws has registered
    nothing. *)
Theorem Subscribe_frame (byte_order : ByteOrder) (radio : Radio)
    (self : WinBleDevice) (characteristicId : list byte)
    (eventHandler : option Handler) (s : Stack) :
  let r := Subscribe byte_order radio self characteristicId eventHandler s in
  (value_changed (snd r) = value_changed s
   \/ exists c handler,
        eventHandler = Some handler
        /\ In c (m_characteristics self)
        /\ fst r = Returns tt
        /\ value_changed (snd r) = value_changed s ++ [(c, handler)])
  /\ (fst r <> Returns tt -> value_changed (snd r) = value_changed s).
Proof.
  unfold Subscribe, bind, lift.
  destruct eventHandler as [handler|]; [|simpl; auto].
  destruct (BytesToGuid byte_order characteristicId) as [g| |];
    try (simpl; auto).
  destruct (find_characteristic self g) as [c|] eqn:Hc; [|simpl; auto].
  unfold WriteDescriptor.
  destruct (is_Success (WriteDescriptor_get radio (calls s) c)); simpl;
    [|auto].
  split.
  - right. exists c, handler.
    pose proof (find_characteristic_Some _ _ _ Hc) as [Hin _]. auto.
  - intros H. contradiction.
Qed.

Lemma Subscribe_frame_witness :
  value_changed
    (snd (Subscribe BigEndian Sample.lost_radio Sample.session
            Fixture.id_notify (Some 7%nat) Sample.idle))
  = value_changed Sample.idle.
Proof.
  apply (proj2 (Subscribe_frame BigEndian Sample.lost_radio Sample.session
                  Fixture.id_notify (Some 7%nat) Sample.idle)).
  discriminate.
Defined.

(** X13: after a [Subscribe] that returned, a notification of the
    characteristic subscribed to calls the handlers registered before, in
    their order, and then the new handler, each with the bytes of the
    notification unchanged; notifications of any other characteristic call
    whom they called before. *)
Theorem Subscribe_then_notification (byte_order : ByteOrder) (radio : Radio)
    (self : WinBleDevice) (characteristicId : list byte) (handler : Handler)
    (s s' : Stack) :
  Subscribe byte_order radio self characteristicId (Some handler) s
  = (Returns tt, s') ->
  exists c,
    In c (m_characteristics self)
    /\ BytesToGuid byte_order characteristicId = Returns (Uuid c)
    /\ (forall value,
          notification s' c value = notification s c value ++ [(handler, value)])
    /\ (forall c' value,
          characteristic_eqb c c' = false ->
          notification s' c' value = notification s c' value).
Proof.
  unfold Subscribe, bind, lift.
  destruct (BytesToGuid byte_order characteristicId) as [g| |]; try discriminate.
  destruct (find_characteristic self g) as [c|] eqn:Hc; [|discriminate].
  unfold WriteDescriptor.
  destruct (is_Success (WriteDescriptor_get radio (calls s) c)); [|discriminate].
  simpl. unfold ret. intros H. injection H as <-.
  pose proof (find_characteristic_Some _ _ _ Hc) as [Hin Hu].
  exists c. split; [exact Hin|]. split; [congruence|]. split.
  - intros value. unfold notification, handlers_of. simpl.
    rewrite filter_app, !map_app. simpl. rewrite characteristic_eqb_refl.
    reflexivity.
  - intros c' value Hne. unfold notification, handlers_of. simpl.
    rewrite filter_app. simpl. rewrite Hne, app_nil_r. reflexivity.
Qed.

Lemma Subscribe_then_notification_witness :
  exists c,
    In c (m_characteristics Sample.session)
    /\ BytesToGuid BigEndian Fixture.id_notify = Returns (Uuid c)
    /\ notification
         (snd (Subscribe BigEndian Sample.good_radio Sample.session
                 Fixture.id_notify (Some 7%nat) Sample.idle))
         c [xaa; xbb]
       = [(7%nat, [xaa; xbb])].
Proof.
  destruct (Subscribe_then_notification BigEndian Sample.good_radio
              Sample.session Fixture.id_notify 7%nat Sample.idle
              (snd (Subscribe BigEndian Sample.good_radio Sample.session
                      Fixture.id_notify (Some 7%nat) Sample.idle))
              eq_refl)
    as (c & Hin & Hg & Hn & _).
  exists c. split; [exact Hin|]. split; [exact Hg|]. exact (Hn [xaa; xbb]).
Defined.

(** ** Start outside the Started state *)

Lemma nth_error_middle {A} (l : list A) (x : A) (r : list A) :
  nth_error (l ++ x :: r) (List.length l) = Some x.
Proof.
  induction l as [|a l IH]; simpl; [reflexivity|exact IH].
Qed.

(** X14: in every state but Started, [Start] registers its four handlers
    behind those already registered, never in place of them, whether or not
    the watcher then starts; the four token members name the new
    registrations, so the tokens of earlier registrations are lost; the
    device table is not touched. *)
Theorem Start_registers_four (self : WinBleAdapter) :
  Status (m_deviceWatcher self) <> Started ->
  let self' := snd (Start self) in
  registered (m_deviceWatcher self')
  = registered (m_deviceWatcher self)
    ++ [AddedHandler; UpdatedHandler; RemovedHandler;
        EnumerationCompletedHandler]
  /\ nth_error (registered (m_deviceWatcher self')) (m_addedEventToken self')
     = Some AddedHandler
  /\ nth_error (registered (m_deviceWatcher self')) (m_updatedEventToken self')
     = Some UpdatedHandler
  /\ nth_error (registered (m_deviceWatcher self')) (m_removedEventToken self')
     = Some RemovedHandler
  /\ nth_error (registered (m_deviceWatcher self'))
       (m_deviceEunumerationCompletedEventToken self')
     = Some EnumerationCompletedHandler
  /\ (List.length (registered (m_deviceWatcher self))
      <= m_addedEventToken self')%nat
  /\ m_nearbyDevices self' = m_nearbyDevices self.
Proof.
  destruct self as [[st l] table ev t1 t2 t3 t4]. intros Hst.
  cbn [m_deviceWatcher Status] in Hst.
  assert (Hl : forall (a b c d : WatcherHandler),
             (((l ++ [a]) ++ [b]) ++ [c]) ++ [d] = l ++ [a; b; c; d])
    by (intros; rewrite <- !app_assoc; reflexivity).
  assert (H1 : nth_error (l ++ [AddedHandler; UpdatedHandler; RemovedHandler;
                                EnumerationCompletedHandler]) (List.length l)
               = Some AddedHandler) by apply nth_error_middle.
  assert (H2 : nth_error (l ++ [AddedHandler; UpdatedHandler; RemovedHandler;
                                EnumerationCompletedHandler])
                 (List.length (l ++ [AddedHandler]))
               = Some UpdatedHandler).
  { change (l ++ [AddedHandler; UpdatedHandler; RemovedHandler;
                  EnumerationCompletedHandler])
      with (l ++ [AddedHandler] ++ [UpdatedHandler; RemovedHandler;
                                    EnumerationCompletedHandler]).
    rewrite app_assoc. apply nth_error_middle. }
  assert (H3 : nth_error (l ++ [AddedHandler; UpdatedHandler; RemovedHandler;
                                EnumerationCompletedHandler])
                 (List.length ((l ++ [AddedHandler]) ++ [UpdatedHandler]))
               = Some RemovedHandler).
  { change (l ++ [AddedHandler; UpdatedHandler; RemovedHandler;
                  EnumerationCompletedHandler])
      with (l ++ [AddedHandler] ++ [UpdatedHandler]
              ++ [RemovedHandler; EnumerationCompletedHandler]).
    rewrite !app_assoc. apply nth_error_middle. }
  assert (H4 : nth_error (l ++ [AddedHandler; UpdatedHandler; RemovedHandler;
                                EnumerationCompletedHandler])
                 (List.length (((l ++ [AddedHandler]) ++ [UpdatedHandler])
                               ++ [RemovedHandler]))
               = Some EnumerationCompletedHandler).
  { change (l ++ [AddedHandler; UpdatedHandler; RemovedHandler;
                  EnumerationCompletedHandler])
      with (l ++ [AddedHandler] ++ [UpdatedHandler] ++ [RemovedHandler]
              ++ [EnumerationCompletedHandler]).
    rewrite !app_assoc. apply nth_error_middle. }
  destruct st; try contradiction;
    lazy beta iota zeta delta -[app List.length nth_error];
    rewrite Hl;
    (repeat split; [exact H1 | exact H2 | exact H3 | exact H4 | lia]).
Qed.

Lemma Start_registers_four_witness :
  registered
    (m_deviceWatcher
       (snd (Start (Sample.adapter_with EnumerationCompleted [Sample.sphero]))))
  = registered (m_deviceWatcher (Fixture.restarted [Sample.sphero])).
Proof.
  refine (proj1 (Start_registers_four
                   (Sample.adapter_with EnumerationCompleted [Sample.sphero]) _)).
  discriminate.
Defined.

(** ** The handlers of the watcher on the device table *)

(** Where [find_if] stops short of the end, it stops at the first element
    that satisfies the predicate. *)
Lemma find_if_split {A} (p : A -> bool) (l : list A) :
  (find_if p l < List.length l)%nat ->
  exists before x after,
    l = before ++ x :: after
    /\ p x = true
    /\ (forall y, In y before -> p y = false)
    /\ firstn (find_if p l) l = before
    /\ skipn (S (find_if p l)) l = after
    /\ nth_error l (find_if p l) = Some x.
Proof.
  induction l as [|a l IH]; simpl; [lia|].
  destruct (p a) eqn:E.
  - intros _. exists [], a, l. simpl. repeat split; try assumption.
    intros y [].
  - intros H. destruct IH as (before & x & after & -> & Hx & Hb & Hf & Hs & Hn);
      [lia|].
    exists (a :: before), x, after. simpl. repeat split; try assumption.
    + intros y [<-|Hy]; [exact E|apply Hb; exact Hy].
    + f_equal. exact Hf.
Qed.

Lemma find_if_found {A} (p : A -> bool) (l : list A) (x : A) :
  In x l -> p x = true -> (find_if p l < List.length l)%nat.
Proof.
  intros Hin Hp. pose proof (find_if_le p l) as Hle.
  destruct (Nat.eq_dec (find_if p l) (List.length l)) as [E|E]; [|lia].
  rewrite (proj1 (find_if_end p l) E x Hin) in Hp. discriminate.
Qed.

Lemma same_id_true (u : DeviceInformationUpdate) (d : DeviceInformation) :
  same_id u d = true <-> Id d = UpdateId u.
Proof. unfold same_id. apply String.eqb_eq. Qed.

Lemma same_id_false (u : DeviceInformationUpdate) (d : DeviceInformation) :
  same_id u d = false <-> Id d <> UpdateId u.
Proof. unfold same_id. apply String.eqb_neq. Qed.

(** X15: when the table has an entry with the id of a Removed event, the
    handler erases exactly one entry, the first with that id in iteration
    order; every other entry, also a later one with the same id, stays, in
    the same order. *)
Theorem on_Removed_erases_first_match (u : DeviceInformationUpdate)
    (self : WinBleAdapter) (d : DeviceInformation) :
  In d (m_nearbyDevices self) -> Id d = UpdateId u ->
  exists before x after,
    m_nearbyDevices self = before ++ x :: after
    /\ Id x = UpdateId u
    /\ (forall y, In y before -> Id y <> UpdateId u)
    /\ on_Removed u self
       = (Returns tt, set_nearbyDevices (before ++ after) self).
Proof.
  intros Hin Hid.
  pose proof (find_if_found (same_id u) _ d Hin (proj2 (same_id_true u d) Hid))
    as Hlt.
  destruct (find_if_split _ _ Hlt) as (before & x & after & Ht & Hx & Hb & Hf & Hs & _).
  exists before, x, after. split; [exact Ht|].
  split; [apply same_id_true; exact Hx|]. split.
  - intros y Hy. apply same_id_false. apply Hb. exact Hy.
  - unfold on_Removed, erase. apply Nat.ltb_lt in Hlt. rewrite Hlt, Hf, Hs.
    reflexivity.
Qed.

Lemma on_Removed_erases_first_match_witness :
  exists before x after,
    m_nearbyDevices (Sample.adapter_with Started [Fixture.bolt; Sample.sphero])
    = before ++ x :: after
    /\ Id x = UpdateId Fixture.removed_sphero
    /\ (forall y, In y before -> Id y <> UpdateId Fixture.removed_sphero)
    /\ on_Removed Fixture.removed_sphero
         (Sample.adapter_with Started [Fixture.bolt; Sample.sphero])
       = (Returns tt,
          set_nearbyDevices (before ++ after)
            (Sample.adapter_with Started [Fixture.bolt; Sample.sphero])).
Proof.
  apply (on_Removed_erases_first_match Fixture.removed_sphero
           (Sample.adapter_with Started [Fixture.bolt; Sample.sphero])
           Sample.sphero).
  - right. left. reflexivity.
  - reflexivity.
Defined.

(** X16: the Updated handler always returns.  It leaves the table as it
    is when no entry has the id of the update; otherwise it replaces the
    first entry with that id by its update, in place, and touches no other
    entry. *)
Theorem on_Updated_in_place (u : DeviceInformationUpdate) (self : WinBleAdapter) :
  ((forall d, In d (m_nearbyDevices self) -> Id d <> UpdateId u)
   /\ on_Updated u self = (Returns tt, self))
  \/ (exists before x after,
        m_nearbyDevices self = before ++ x :: after
        /\ Id x = UpdateId u
        /\ (forall y, In y before -> Id y <> UpdateId u)
        /\ on_Updated u self
           = (Returns tt,
              set_nearbyDevices (before ++ Update x u :: after) self)).
Proof.
  pose proof (find_if_le (same_id u) (m_nearbyDevices self)) as Hle.
  unfold on_Updated.
  destruct (Nat.eq_dec (find_if (same_id u) (m_nearbyDevices self))
              (List.length (m_nearbyDevices self))) as [E|E].
  - left. split.
    + intros d Hd. apply same_id_false.
      exact (proj1 (find_if_end _ _) E d Hd).
    + apply Nat.eqb_eq in E. rewrite E. reflexivity.
  - right.
    destruct (find_if_split (same_id u) (m_nearbyDevices self))
      as (before & x & after & Ht & Hx & Hb & Hf & Hs & Hn); [lia|].
    exists before, x, after. split; [exact Ht|].
    split; [apply same_id_true; exact Hx|]. split.
    + intros y Hy. apply same_id_false. apply Hb. exact Hy.
    + apply Nat.eqb_neq in E. rewrite E, Hn, Hf, Hs. reflexivity.
Qed.

Lemma set_nearbyDevices_same (self : WinBleAdapter) :
  set_nearbyDevices (m_nearbyDevices self) self = self.
Proof. destruct self. reflexivity. Qed.

Lemma set_nearbyDevices_twice (t t' : list DeviceInformation)
    (self : WinBleAdapter) :
  set_nearbyDevices t' (set_nearbyDevices t self) = set_nearbyDevices t' self.
Proof. reflexivity. Qed.

(** X17: a device that is new to the table, by object and by id, and is
    added and then removed leaves the adapter with the entries it had
    before, and nothing else changed. *)
Theorem on_Added_then_on_Removed (deviceInfo : DeviceInformation)
    (u : DeviceInformationUpdate) (self : WinBleAdapter) :
  (forall x, In x (m_nearbyDevices self) -> Object x <> Object deviceInfo) ->
  (forall x, In x (m_nearbyDevices self) -> Id x <> Id deviceInfo) ->
  UpdateId u = Id deviceInfo ->
  exists table,
    on_Removed u (snd (on_Added deviceInfo self))
    = (Returns tt, set_nearbyDevices table self)
    /\ Permutation table (m_nearbyDevices self).
Proof.
  intros Hobj Hid Hu. unfold on_Added.
  replace (existsb _ (m_nearbyDevices self)) with false.
  2:{ symmetry. apply not_true_is_false. intros H. apply existsb_exists in H.
      destruct H as (x & Hx & E). apply Nat.eqb_eq in E.
      exact (Hobj x Hx E). }
  cbn [snd].
  assert (Hin : In deviceInfo (m_nearbyDevices
                                 (set_nearbyDevices
                                    (m_nearbyDevices self ++ [deviceInfo]) self))).
  { simpl. apply in_or_app. right. left. reflexivity. }
  pose proof (find_if_found (same_id u) _ deviceInfo Hin
                (proj2 (same_id_true u deviceInfo) (eq_sym Hu))) as Hlt.
  destruct (find_if_split _ _ Hlt)
    as (before & x & after & Ht & Hx & _ & Hf & Hs & _).
  apply same_id_true in Hx.
  unfold on_Removed, erase. apply Nat.ltb_lt in Hlt. rewrite Hlt, Hf, Hs.
  exists (before ++ after). split; [reflexivity|].
  simpl in Ht.
  (* the first entry with the id is the one just added *)
  assert (Hlast : before = m_nearbyDevices self /\ after = []).
  { destruct after as [|y after'].
    - apply app_inj_tail in Ht. destruct Ht as [-> _]. auto.
    - exfalso.
      destruct (exists_last (l := y :: after') ltac:(discriminate))
        as (mid & z & Hz).
      rewrite Hz in Ht.
      change (before ++ x :: mid ++ [z]) with (before ++ (x :: mid) ++ [z]) in Ht.
      rewrite app_assoc in Ht. apply app_inj_tail in Ht. destruct Ht as [Ht _].
      apply (Hid x); [|congruence].
      rewrite Ht. apply in_or_app. right. left. reflexivity. }
  destruct Hlast as [-> ->]. rewrite app_nil_r. apply Permutation_refl.
Qed.

Lemma on_Added_then_on_Removed_witness :
  exists table,
    on_Removed Fixture.removed_sphero
      (snd (on_Added Sample.sphero (Sample.adapter_with Started [Fixture.bolt])))
    = (Returns tt,
       set_nearbyDevices table (Sample.adapter_with Started [Fixture.bolt]))
    /\ Permutation table [Fixture.bolt].
Proof.
  apply (on_Added_then_on_Removed Sample.sphero Fixture.removed_sphero
           (Sample.adapter_with Started [Fixture.bolt])).
  - intros x [<-|[]]. discriminate.
  - intros x [<-|[]]. discriminate.
  - reflexivity.
Defined.

(** ** Events raised by the watcher *)

(** What a handler leaves of the table: an invariant of the table that
    the four lambdas keep is kept by a raised event, however many handlers
    are registered and whatever the outcome. *)
Lemma invoke_all_invariant (P : list DeviceInformation -> Prop)
    (ev : WatcherEvent) :
  (forall h a, P (m_nearbyDevices a) ->
               P (m_nearbyDevices (snd (invoke h ev a)))) ->
  forall hs self,
    P (m_nearbyDevices self) ->
    P (m_nearbyDevices (snd (invoke_all hs ev self))).
Proof.
  intros Hstep hs. induction hs as [|h rest IH]; intros self HP; [exact HP|].
  simpl. unfold bind. specialize (Hstep h self HP).
  destruct (invoke h ev self) as [[[]| |] a']; simpl in *;
    [apply IH; exact Hstep | exact Hstep | exact Hstep].
Qed.

(** X18: as long as the records the watcher reports with Added events
    carry the requested properties, every record of the device table does,
    after any event and with any number of registered handlers: records only
    enter through Added, and updates and removals keep the property keys. *)
Theorem raise_keeps_requested_properties (ev : WatcherEvent)
    (self : WinBleAdapter) :
  (forall deviceInfo, ev = AddedEvent deviceInfo -> carries_requested deviceInfo) ->
  watcher_table (m_nearbyDevices self) ->
  watcher_table (m_nearbyDevices (snd (raise ev self))).
Proof.
  intros Hev Ht. unfold raise. apply invoke_all_invariant; [|exact Ht].
  intros h a Ha. destruct h, ev; try exact Ha; simpl.
  - apply watcher_table_on_Added; [apply Hev; reflexivity | exact Ha].
  - apply watcher_table_on_Updated. exact Ha.
  - apply watcher_table_on_Removed. exact Ha.
Qed.

Lemma raise_keeps_requested_properties_witness :
  watcher_table
    (m_nearbyDevices
       (snd (raise (AddedEvent Fixture.bolt)
               (Sample.adapter_with Started [Sample.sphero])))).
Proof.
  apply (raise_keeps_requested_properties (AddedEvent Fixture.bolt)
           (Sample.adapter_with Started [Sample.sphero])).
  - intros deviceInfo H. injection H as <-.
    intros key [<-|[<-|[<-|[]]]]; eexists; reflexivity.
  - intros d [<-|[]] key [<-|[<-|[<-|[]]]]; eexists; reflexivity.
Defined.

Lemma map_Object_Update (before after : list DeviceInformation)
    (x : DeviceInformation) (u : DeviceInformationUpdate) :
  map Object (before ++ Update x u :: after) = map Object (before ++ x :: after).
Proof. rewrite !map_app. reflexivity. Qed.

(** X19: the table holds every object at most once, after any event and
    with any number of registered handlers: an Added handler that runs for
    an object already in the table inserts nothing. *)
Theorem raise_keeps_objects_distinct (ev : WatcherEvent) (self : WinBleAdapter) :
  NoDup (map Object (m_nearbyDevices self)) ->
  NoDup (map Object (m_nearbyDevices (snd (raise ev self)))).
Proof.
  unfold raise.
  apply (invoke_all_invariant (fun t => NoDup (map Object t))).
  intros h a Ha. destruct h, ev; try exact Ha; simpl.
  - (* Added *)
    unfold on_Added.
    destruct (existsb _ (m_nearbyDevices a)) eqn:E; [exact Ha|]. simpl.
    rewrite map_app. simpl.
    apply NoDup_app; [exact Ha | constructor; [intros []|constructor] |].
    intros o Ho [<-|[]]. apply in_map_iff in Ho. destruct Ho as (x & Hx & Hin).
    {
      assert (existsb (fun d => Nat.eqb (Object d) (Object deviceInfo))
                (m_nearbyDevices a) = true).
      { apply existsb_exists. exists x. split; [exact Hin|].
        apply Nat.eqb_eq. exact Hx. }
      congruence. }
  - (* Updated *)
    unfold on_Updated.
    pose proof (find_if_le (same_id deviceInfoUpdate) (m_nearbyDevices a)) as Hle.
    destruct (negb _) eqn:E; [|exact Ha].
    apply negb_true_iff, Nat.eqb_neq in E.
    destruct (find_if_split (same_id deviceInfoUpdate) (m_nearbyDevices a))
      as (before & x & after & Ht & _ & _ & Hf & Hs & Hn); [lia|].
    rewrite Hn, Hf, Hs. cbn [snd set_nearbyDevices m_nearbyDevices].
    rewrite map_Object_Update, <- Ht. exact Ha.
  - (* Removed *)
    unfold on_Removed, erase.
    destruct (_ <? _)%nat eqn:E; [|exact Ha].
    apply Nat.ltb_lt in E.
    destruct (find_if_split _ _ E) as (before & x & after & Ht & _ & _ & Hf & Hs & _).
    cbn [snd set_nearbyDevices m_nearbyDevices]. rewrite Hf, Hs.
    rewrite Ht, map_app in Ha. simpl in Ha. apply NoDup_remove_1 in Ha.
    rewrite map_app. exact Ha.
Qed.

Lemma raise_keeps_objects_distinct_witness :
  NoDup (map Object
           (m_nearbyDevices
              (snd (raise (AddedEvent Sample.sphero)
                      (Fixture.restarted [Sample.sphero]))))).
Proof.
  apply (raise_keeps_objects_distinct (AddedEvent Sample.sphero)
           (Fixture.restarted [Sample.sphero])).
  simpl. constructor; [intros []|constructor].
Defined.

Lemma filter_same_id_split (p : DeviceInformation -> bool)
    (before after : list DeviceInformation) (x : DeviceInformation) :
  p x = true -> (forall y, In y before -> p y = false) ->
  List.length (filter p (before ++ x :: after))
  = S (List.length (filter p (before ++ after))).
Proof.
  intros Hx Hb.
  assert (E : filter p before = []).
  { induction before as [|y l IH]; simpl; [reflexivity|].
    rewrite (Hb y (or_introl eq_refl)). apply IH.
    intros z Hz. apply Hb. right. exact Hz. }
  rewrite !filter_app, E. simpl. rewrite Hx. reflexivity.
Qed.

Lemma filter_none {A} (p : A -> bool) (l : list A) :
  (forall x, In x l -> p x = false) -> filter p l = [].
Proof.
  induction l as [|x l IH]; intros H; simpl; [reflexivity|].
  rewrite (H x (or_introl eq_refl)). apply IH. intros y Hy. apply H.
  right. exact Hy.
Qed.

Lemma invoke_all_Removed (u : DeviceInformationUpdate) (hs : list WatcherHandler) :
  forall self,
    fst (invoke_all hs (RemovedEvent u) self)
    = if (List.length (filter (same_id u) (m_nearbyDevices self))
          <? List.length (filter is_RemovedHandler hs))%nat
      then Undefined else Returns tt.
Proof.
  induction hs as [|h rest IH]; intros self; [reflexivity|].
  cbn [invoke_all]. unfold bind.
  destruct h; try (cbn [invoke ret filter is_RemovedHandler]; apply IH).
  cbn [invoke filter is_RemovedHandler List.length].
  pose proof (find_if_le (same_id u) (m_nearbyDevices self)) as Hle.
  destruct (Nat.eq_dec (find_if (same_id u) (m_nearbyDevices self))
              (List.length (m_nearbyDevices self))) as [E|E].
  - (* no entry with the id: the handler erases end() *)
    rewrite (filter_none _ _ (proj1 (find_if_end _ _) E)).
    unfold on_Removed, erase. rewrite E, Nat.ltb_irrefl. reflexivity.
  - destruct (find_if_split (same_id u) (m_nearbyDevices self))
      as (before & x & after & Ht & Hx & Hb & Hf & Hs & _); [lia|].
    unfold on_Removed, erase.
    replace (find_if (same_id u) (m_nearbyDevices self)
             <? List.length (m_nearbyDevices self))%nat with true
      by (symmetry; apply Nat.ltb_lt; lia).
    rewrite Hf, Hs, IH. cbn [m_nearbyDevices set_nearbyDevices].
    rewrite Ht, (filter_same_id_split _ before after x Hx Hb). reflexivity.
Qed.

(** X20: a Removed event runs the Removed lambda once per registration,
    and each run needs an entry with the id to erase.  The event is
    undefined behaviour exactly when more Removed handlers are registered
    than the table has entries with that id, and returns otherwise; so once
    [Start] has registered the handlers twice, removing a device that is in
    the table once is undefined. *)
Theorem raise_Removed_defined_iff (u : DeviceInformationUpdate)
    (self : WinBleAdapter) :
  fst (raise (RemovedEvent u) self)
  = if (List.length (filter (same_id u) (m_nearbyDevices self))
        <? List.length (filter is_RemovedHandler
                          (registered (m_deviceWatcher self))))%nat
    then Undefined else Returns tt.
Proof. unfold raise. apply invoke_all_Removed. Qed.

Example raise_Removed_after_restart :
  fst (raise (RemovedEvent Fixture.removed_sphero)
         (Fixture.restarted [Fixture.bolt; Sample.sphero]))
  = Undefined
  /\ raise (RemovedEvent Fixture.removed_sphero)
       (Sample.adapter_with EnumerationCompleted [Fixture.bolt; Sample.sphero])
     = (Returns tt, Sample.adapter_with EnumerationCompleted [Fixture.bolt]).
Proof. split; reflexivity. Qed.

(** ** Scan and Connect on the device table *)

Lemma Lookup_cases (m : list (string * string)) (key : string) :
  (exists v, Lookup m key = Returns v)
  \/ Lookup m key = Throws (hresult_error "E_BOUNDS").
Proof.
  induction m as [|[k v] m IH]; simpl; [right; reflexivity|].
  destruct (String.eqb k key); [left; eexists; reflexivity|exact IH].
Qed.

Lemma Lookup_absent (m : list (string * string)) (key : string) :
  (forall v, ~ In (key, v) m) ->
  Lookup m key = Throws (hresult_error "E_BOUNDS").
Proof.
  induction m as [|[k v] m IH]; intros H; simpl; [reflexivity|].
  destruct (String.eqb k key) eqn:E.
  - apply String.eqb_eq in E. subst k. exfalso. apply (H v). left. reflexivity.
  - apply IH. intros v' Hv'. apply (H v'). right. exact Hv'.
Qed.

Lemma Scan_loop_lists (table : list DeviceInformation) :
  (forall d, In d table -> exists a, GetDeviceAddress d = Returns a) ->
  forall devices,
    exists more,
      Scan_loop table devices = Returns (devices ++ more)
      /\ Forall2 scanned table more.
Proof.
  induction table as [|d rest IH]; intros Hall devices.
  - exists []. simpl. rewrite app_nil_r. split; [reflexivity|constructor].
  - destruct (Hall d (or_introl eq_refl)) as [a Ha]. simpl. rewrite Ha.
    destruct (IH (fun x Hx => Hall x (or_intror Hx))
                 (devices ++ [[("name", Name d); ("address", a)]%string]))
      as (more & Hm & HF).
    exists ([("name", Name d); ("address", a)]%string :: more). split.
    + rewrite Hm, <- app_assoc. reflexivity.
    + constructor; [exists a; auto|exact HF].
Qed.

(** X21: on a table whose records carry the requested properties, the
    loop of [Scan] returns one item per record, in the iteration order of the
    table, holding the name of the record under "name" and its address
    property under "address". *)
Theorem Scan_devices_lists_table (self : WinBleAdapter) :
  watcher_table (m_nearbyDevices self) ->
  exists devices,
    Scan_devices self = Returns devices
    /\ Forall2 scanned (m_nearbyDevices self) devices
    /\ List.length devices = List.length (m_nearbyDevices self).
Proof.
  intros Ht. unfold Scan_devices.
  destruct (Scan_loop_lists _ (watcher_table_addresses _ Ht) [])
    as (more & Hm & HF).
  exists more. split; [exact Hm|]. split; [exact HF|].
  symmetry. exact (Forall2_length HF).
Qed.

Lemma Sample_table_requested :
  watcher_table [Fixture.bolt; Sample.sphero].
Proof.
  intros d [<-|[<-|[]]] key [<-|[<-|[<-|[]]]]; eexists; reflexivity.
Qed.

Lemma Scan_devices_lists_table_witness :
  exists devices,
    Scan_devices (Sample.adapter_with EnumerationCompleted
                    [Fixture.bolt; Sample.sphero]) = Returns devices
    /\ Forall2 scanned [Fixture.bolt; Sample.sphero] devices
    /\ List.length devices = 2%nat.
Proof.
  apply (Scan_devices_lists_table
           (Sample.adapter_with EnumerationCompleted
              [Fixture.bolt; Sample.sphero])).
  intros d [<-|[<-|[]]] key [<-|[<-|[<-|[]]]]; eexists; reflexivity.
Defined.

Example Scan_devices_sample :
  Scan_devices (Sample.adapter_with EnumerationCompleted
                  [Fixture.bolt; Sample.sphero])
  = Returns [[("name", "SB-5678"); ("address", "11:22:33:44:55:66")];
             [("name", "SK-1234"); ("address", "aa:bb:cc:dd:ee:ff")]]%string.
Proof. reflexivity. Qed.

Lemma Forall2_In_r {A B} (R : A -> B -> Prop) (l : list A) (l' : list B) (y : B) :
  Forall2 R l l' -> In y l' -> exists x, In x l /\ R x y.
Proof.
  induction 1 as [|a b l l' Hab _ IH]; intros Hy; [destruct Hy|].
  destruct Hy as [<-|Hy]; [exists a; simpl; auto|].
  destruct (IH Hy) as (x & Hx & HR). exists x. simpl. auto.
Qed.

(** X22: every address that [Scan] reports is one that [Connect] finds in
    the table: given such an address, [Connect] makes its one request by
    the platform id of a record with that address and never by the number
    parsed from the text. *)
Theorem Scan_then_Connect_by_id (ULONG_MAX : Z) (radio : Radio)
    (self : WinBleAdapter) (devices : list dict) (name address : string)
    (s : Stack) :
  watcher_table (m_nearbyDevices self) ->
  Scan_devices self = Returns devices ->
  In [("name", name); ("address", address)]%string devices ->
  exists d,
    In d (m_nearbyDevices self)
    /\ GetDeviceAddress d = Returns address
    /\ Connect ULONG_MAX radio self address s
       = make_session (FromIdAsync_get radio (calls s) (Id d))
                      (log (FromIdAsync (Id d)) s).
Proof.
  intros Ht Hscan Hin.
  destruct (Scan_loop_lists _ (watcher_table_addresses _ Ht) [])
    as (devices' & Hs' & HF).
  unfold Scan_devices in Hscan. rewrite Hscan in Hs'. injection Hs' as ->.
  destruct (Forall2_In_r _ _ _ _ HF Hin) as (x & Hx & a & Ha & He).
  injection He as _ ->.
  destruct (find_address_total _ a (watcher_table_addresses _ Ht)) as [[d|] Hr].
  - destruct (find_address_Some _ _ _ Hr) as [Hd Hda].
    exists d. split; [exact Hd|]. split; [exact Hda|].
    unfold Connect, bind, lift. rewrite Hr. reflexivity.
  - exfalso. exact (find_address_None _ _ Hr x Hx Ha).
Qed.

Lemma Scan_then_Connect_by_id_witness :
  exists d,
    In d [Fixture.bolt; Sample.sphero]
    /\ GetDeviceAddress d = Returns "aa:bb:cc:dd:ee:ff"%string
    /\ Connect ULONG_MAX_LLP64 Sample.good_radio
         (Sample.adapter_with EnumerationCompleted [Fixture.bolt; Sample.sphero])
         "aa:bb:cc:dd:ee:ff" Sample.idle
       = make_session
           (FromIdAsync_get Sample.good_radio (calls Sample.idle) (Id d))
           (log (FromIdAsync (Id d)) Sample.idle).
Proof.
  refine (Scan_then_Connect_by_id ULONG_MAX_LLP64 Sample.good_radio
            (Sample.adapter_with EnumerationCompleted
               [Fixture.bolt; Sample.sphero])
            _ "SK-1234" "aa:bb:cc:dd:ee:ff" Sample.idle
            Sample_table_requested Scan_devices_sample _).
  right. left. reflexivity.
Defined.

(** X23: one record without the address property makes the whole loop of
    [Scan] fail with the error of the lookup: no list is returned, not even
    of the records before it. *)
Theorem Scan_devices_missing_address (self : WinBleAdapter)
    (d : DeviceInformation) :
  In d (m_nearbyDevices self) ->
  (forall v, ~ In ("System.Devices.Aep.DeviceAddress"%string, v) (Properties d)) ->
  Scan_devices self = Throws (hresult_error "E_BOUNDS").
Proof.
  intros Hin Habs. unfold Scan_devices.
  assert (Hd : GetDeviceAddress d = Throws (hresult_error "E_BOUNDS"))
    by (apply Lookup_absent; exact Habs).
  generalize (@nil dict).
  induction (m_nearbyDevices self) as [|x rest IH]; intros acc; [destruct Hin|].
  simpl.
  destruct (Lookup_cases (Properties x) "System.Devices.Aep.DeviceAddress")
    as [[v Hv]|Hv]; unfold GetDeviceAddress; rewrite Hv; [|reflexivity].
  destruct Hin as [<-|Hin]; [|apply IH; exact Hin].
  unfold GetDeviceAddress in Hd. congruence.
Qed.

Lemma Scan_devices_missing_address_witness :
  Scan_devices (Sample.adapter_with EnumerationCompleted
                  [Sample.sphero; Sample.nameless])
  = Throws (hresult_error "E_BOUNDS").
Proof.
  apply (Scan_devices_missing_address
           (Sample.adapter_with EnumerationCompleted
              [Sample.sphero; Sample.nameless])
           Sample.nameless).
  - right. left. reflexivity.
  - intros v [].
Defined.

Lemma find_address_skips (before : list DeviceInformation) (address : string)
    (rest : list DeviceInformation) :
  (forall y, In y before ->
             exists a, GetDeviceAddress y = Returns a /\ a <> address) ->
  find_address (before ++ rest) address = find_address rest address.
Proof.
  induction before as [|y l IH]; intros H; [reflexivity|].
  simpl. destruct (H y (or_introl eq_refl)) as (a & -> & Hne).
  apply String.eqb_neq in Hne. rewrite Hne.
  apply IH. intros z Hz. apply H. right. exact Hz.
Qed.

(** X24: the search of [Connect] runs in iteration order and stops at the
    first record that has the address: the request is made by the id of that
    record, whatever records follow it, also when a later record has the
    same address or has no address at all. *)
Theorem Connect_first_match (ULONG_MAX : Z) (radio : Radio)
    (self : WinBleAdapter) (address : string) (s : Stack)
    (before after : list DeviceInformation) (d : DeviceInformation) :
  m_nearbyDevices self = before ++ d :: after ->
  (forall y, In y before ->
             exists a, GetDeviceAddress y = Returns a /\ a <> address) ->
  GetDeviceAddress d = Returns address ->
  Connect ULONG_MAX radio self address s
  = make_session (FromIdAsync_get radio (calls s) (Id d))
                 (log (FromIdAsync (Id d)) s).
Proof.
  intros Ht Hb Hd. unfold Connect, bind, lift.
  rewrite Ht, (find_address_skips before address (d :: after) Hb).
  simpl. rewrite Hd, String.eqb_refl. reflexivity.
Qed.

Lemma Connect_first_match_witness :
  Connect ULONG_MAX_LLP64 Sample.good_radio
    (Sample.adapter_with Started [Fixture.bolt; Sample.sphero; Sample.nameless])
    "aa:bb:cc:dd:ee:ff" Sample.idle
  = make_session
      (FromIdAsync_get Sample.good_radio (calls Sample.idle) "BluetoothLE#dev-1")
      (log (FromIdAsync "BluetoothLE#dev-1") Sample.idle).
Proof.
  apply (Connect_first_match ULONG_MAX_LLP64 Sample.good_radio
           (Sample.adapter_with Started
              [Fixture.bolt; Sample.sphero; Sample.nameless])
           "aa:bb:cc:dd:ee:ff" Sample.idle
           [Fixture.bolt] [Sample.nameless] Sample.sphero).
  - reflexivity.
  - intros y [<-|[]]. eexists. split; [reflexivity|discriminate].
  - reflexivity.
Defined.

(** X25: a record without the address property that the search of
    [Connect] reaches before any record with the address makes [Connect]
    fail with the error of the lookup, without any request, also when a
    later record has the address. *)
Theorem Connect_missing_address (ULONG_MAX : Z) (radio : Radio)
    (self : WinBleAdapter) (address : string) (s : Stack)
    (before after : list DeviceInformation) (d : DeviceInformation) :
  m_nearbyDevices self = before ++ d :: after ->
  (forall y, In y before ->
             exists a, GetDeviceAddress y = Returns a /\ a <> address) ->
  (forall v, ~ In ("System.Devices.Aep.DeviceAddress"%string, v) (Properties d)) ->
  Connect ULONG_MAX radio self address s
  = (Throws (hresult_error "E_BOUNDS"), s).
Proof.
  intros Ht Hb Habs. unfold Connect, bind, lift.
  rewrite Ht, (find_address_skips before address (d :: after) Hb).
  simpl. unfold GetDeviceAddress. rewrite (Lookup_absent _ _ Habs). reflexivity.
Qed.

Lemma Connect_missing_address_witness :
  Connect ULONG_MAX_LLP64 Sample.good_radio
    (Sample.adapter_with Started [Fixture.bolt; Sample.nameless; Sample.sphero])
    "aa:bb:cc:dd:ee:ff" Sample.idle
  = (Throws (hresult_error "E_BOUNDS"), Sample.idle).
Proof.
  apply (Connect_missing_address ULONG_MAX_LLP64 Sample.good_radio
           (Sample.adapter_with Started
              [Fixture.bolt; Sample.nameless; Sample.sphero])
           "aa:bb:cc:dd:ee:ff" Sample.idle
           [Fixture.bolt] [Sample.sphero] Sample.nameless).
  - reflexivity.
  - intros y [<-|[]]. eexists. split; [reflexivity|discriminate].
  - intros v [].
Defined.

Lemma find_address_no_match (table : list DeviceInformation) (address : string) :
  (forall y, In y table ->
             exists a, GetDeviceAddress y = Returns a /\ a <> address) ->
  find_address table address = Returns None.
Proof.
  intros H. rewrite <- (app_nil_r table).
  rewrite (find_address_skips table address [] H). reflexivity.
Qed.

(** X26: the table is searched for the text as given, the number is
    parsed from the text without its colons: when no record has the address
    text, a text that starts with no hexadecimal digit (after white space,
    sign and 0x prefix) is not rejected but leads to a connect request to
    address 0. *)
Theorem Connect_unparsable_address (ULONG_MAX : Z) (radio : Radio)
    (self : WinBleAdapter) (address : string) (s : Stack) :
  0 <= ULONG_MAX ->
  (forall y, In y (m_nearbyDevices self) ->
             exists a, GetDeviceAddress y = Returns a /\ a <> address) ->
  CRuntime.subject_digits (CRuntime.erase_remove ":" address) = [] ->
  Connect ULONG_MAX radio self address s
  = make_session (FromBluetoothAddressAsync_get radio (calls s) 0)
                 (log (FromBluetoothAddressAsync 0) s).
Proof.
  intros Hum Hno Hdigits. unfold Connect, bind, lift.
  rewrite (find_address_no_match _ _ Hno).
  assert (E : MacAddressStringToUint ULONG_MAX address = 0).
  { unfold MacAddressStringToUint, CRuntime.strtoul16.
    unfold CRuntime.subject_digits in Hdigits.
    destruct (CRuntime.take_sign _) as [neg body]. simpl in Hdigits.
    rewrite Hdigits. change (CRuntime.hex_value []) with 0.
    destruct (ULONG_MAX <? 0) eqn:F; [apply Z.ltb_lt in F; lia|].
    destruct neg; [|reflexivity]. rewrite Z.sub_0_r. apply Z.mod_same. lia. }
  unfold FromBluetoothAddress. rewrite E. reflexivity.
Qed.

Lemma Connect_unparsable_address_witness :
  Connect ULONG_MAX_LLP64 Sample.good_radio
    (Sample.adapter_with Started [Sample.sphero]) "not an address" Sample.idle
  = make_session
      (FromBluetoothAddressAsync_get Sample.good_radio (calls Sample.idle) 0)
      (log (FromBluetoothAddressAsync 0) Sample.idle).
Proof.
  apply (Connect_unparsable_address ULONG_MAX_LLP64 Sample.good_radio
           (Sample.adapter_with Started [Sample.sphero]) "not an address"
           Sample.idle).
  - unfold ULONG_MAX_LLP64. lia.
  - intros y [<-|[]]. eexists. split; [reflexivity|discriminate].
  - reflexivity.
Defined.

(** X27: the match against the table is on the exact text, the fallback
    is not: when neither an address text nor its colon-free form is the
    address of a record, [Connect] does the same with both, a request to
    the one number they parse to. *)
Theorem Connect_fallback_ignores_colons (ULONG_MAX : Z) (radio : Radio)
    (self : WinBleAdapter) (address : string) (s : Stack) :
  (forall y, In y (m_nearbyDevices self) ->
             exists a, GetDeviceAddress y = Returns a
                       /\ a <> address
                       /\ a <> CRuntime.erase_remove ":" address) ->
  Connect ULONG_MAX radio self address s
  = Connect ULONG_MAX radio self (CRuntime.erase_remove ":" address) s
  /\ calls (snd (Connect ULONG_MAX radio self address s))
     = calls s ++ [FromBluetoothAddressAsync
                     (MacAddressStringToUint ULONG_MAX address)].
Proof.
  intros H. unfold Connect, bind, lift.
  rewrite (find_address_no_match _ address),
          (find_address_no_match _ (CRuntime.erase_remove ":" address)).
  - unfold MacAddressStringToUint. rewrite erase_remove_idem.
    split; [reflexivity|]. unfold FromBluetoothAddress. cbv beta iota.
    rewrite make_session_stack. reflexivity.
  - intros y Hy. destruct (H y Hy) as (a & Ha & _ & Hne). eauto.
  - intros y Hy. destruct (H y Hy) as (a & Ha & Hne & _). eauto.
Qed.

Lemma Connect_fallback_ignores_colons_witness :
  Connect ULONG_MAX_LP64 Sample.good_radio
    (Sample.adapter_with Started [Sample.sphero]) "AA:BB:CC:DD:EE:FF" Sample.idle
  = Connect ULONG_MAX_LP64 Sample.good_radio
      (Sample.adapter_with Started [Sample.sphero]) "AABBCCDDEEFF" Sample.idle.
Proof.
  refine (proj1 (Connect_fallback_ignores_colons ULONG_MAX_LP64 Sample.good_radio
                   (Sample.adapter_with Started [Sample.sphero])
                   "AA:BB:CC:DD:EE:FF" Sample.idle _)).
  intros y [<-|[]]. eexists. split; [reflexivity|]. split; discriminate.
Defined.

(** ** Added events with several registrations *)

Lemma holds_snoc (table : list DeviceInformation) (d : DeviceInformation) :
  holds (table ++ [d]) d = true.
Proof.
  unfold holds. rewrite existsb_app. simpl. rewrite Nat.eqb_refl.
  rewrite orb_true_r. reflexivity.
Qed.

Lemma invoke_all_Added (d : DeviceInformation) (hs : list WatcherHandler) :
  forall self,
    invoke_all hs (AddedEvent d) self
    = (Returns tt,
       if holds (m_nearbyDevices self) d || negb (existsb is_AddedHandler hs)
       then self
       else set_nearbyDevices (m_nearbyDevices self ++ [d]) self).
Proof.
  induction hs as [|h rest IH]; intros self.
  - simpl. rewrite orb_true_r. reflexivity.
  - cbn [invoke_all]. unfold bind.
    destruct h; cbn [invoke ret existsb is_AddedHandler orb negb];
      try (rewrite IH; reflexivity).
    unfold on_Added. fold (holds (m_nearbyDevices self) d).
    destruct (holds (m_nearbyDevices self) d) eqn:E.
    + rewrite IH, E. reflexivity.
    + rewrite IH. cbn [m_nearbyDevices set_nearbyDevices].
      rewrite holds_snoc. reflexivity.
Qed.

(** X28: an Added event puts its record into the table once, however
    many Added handlers are registered: with at least one handler and an
    object that is not in the table yet the table gains exactly that record,
    and in every other case the adapter stays as it is; the event always
    returns. *)
Theorem raise_Added_inserts_once (deviceInfo : DeviceInformation)
    (self : WinBleAdapter) :
  exists table,
    raise (AddedEvent deviceInfo) self
    = (Returns tt, set_nearbyDevices table self)
    /\ Permutation table
         (if holds (m_nearbyDevices self) deviceInfo
             || negb (existsb is_AddedHandler (registered (m_deviceWatcher self)))
          then m_nearbyDevices self
          else deviceInfo :: m_nearbyDevices self).
Proof.
  unfold raise. rewrite invoke_all_Added.
  destruct (holds _ _ || negb _).
  - exists (m_nearbyDevices self). rewrite set_nearbyDevices_same.
    split; [reflexivity|apply Permutation_refl].
  - exists (m_nearbyDevices self ++ [deviceInfo]). split; [reflexivity|].
    apply Permutation_sym, Permutation_cons_append.
Qed.

Example raise_Added_after_restart :
  fst (raise (AddedEvent Fixture.bolt) (Fixture.restarted [Sample.sphero]))
  = Returns tt
  /\ Permutation
       (m_nearbyDevices
          (snd (raise (AddedEvent Fixture.bolt)
                  (Fixture.restarted [Sample.sphero]))))
       [Fixture.bolt; Sample.sphero].
Proof. split; [reflexivity|]. apply perm_swap. Qed.
